(** * symai: a shallow embedding of the symbolic-value core

    The development follows the Python sources

      - [symai/symbol.py]               (class [Symbol], class [Expression])
      - [symai/memory.py]               (the two sliding-window memories)
      - [symai/extended/document.py]    (class [DocumentRetriever])
      - [symai/extended/file_merger.py] (class [FileMerger])
      - [symai/shellsv.py]              (classes [FileHistory], [PathCompleter])

    Python objects live in a heap of mutable objects addressed by
    references; immutable values ([None], booleans, integers, strings,
    tuples) are carried around directly.  Floating-point payloads and numpy
    arrays are left out of the value universe. *)

From Stdlib Require Import ZArith SpecFloat String Ascii List Lia.
From stdpp Require Import gmap strings list fin_maps pretty.

Set Warnings "-register-all".

Local Open Scope string_scope.
Local Open Scope Z_scope.

(** ** Python values and the object heap *)

Definition addr := nat.

Inductive pyval : Type :=
  | PNone
  | PBool (b : bool)
  | PInt (z : Z)
  | PStr (s : string)
  | PTuple (vs : list pyval)
  | PRef (a : addr).

(** An instance of [Symbol] (or of a subclass).  [type_] is [str(type(self))];
    [extra] holds the instance attributes that subclasses add next to the
    five that [Symbol.__init__] sets. *)
Record instance : Type := Instance {
  value : pyval;
  metadata : pyval;
  parent : pyval;
  children : pyval;
  _static_context : option string;
  type_ : string;
  extra : gmap string pyval
}.

Inductive obj : Type :=
  | OList (vs : list pyval)
  | ODict (kvs : list (pyval * pyval))
  | OSet (vs : list pyval)
  | OSymbol (s : instance).

Abbreviation heap := (gmap addr obj).

(** Exceptions: the class name, [str(e)], and [__context__].  For a
    [KeyError], [str(e)] is the [repr()] of its argument. *)
Inductive exn : Type :=
  | Exception (cls : string) (msg : string) (context : option exn).

Definition result (A : Type) : Type := (A + exn)%type.

(** What the interpreter itself provides.  [py_str h v] is [str(v)];
    [py_str_list l] is [str()] of the list of the strings [l],
    [py_str_dict h kvs] that of the dict with keys and string values [kvs],
    [py_str_set l] that of the set built from the strings [l];
    [py_set h vs] lists the items of the set built from [vs];
    [py_getattr h v key] is [getattr(v, key)] on a payload [v]. *)
Class PyRuntime : Type := {
  py_str : heap -> pyval -> string;
  py_str_list : list string -> string;
  py_str_dict : heap -> list (pyval * string) -> string;
  py_str_set : list string -> string;
  py_set : heap -> list pyval -> list pyval;
  py_getattr : heap -> pyval -> string -> result pyval;
  py_str_of_str : forall h s, py_str h (PStr s) = s
}.

(** A request as a dispatch decorator of [symai.core] sends it to an
    engine. *)
Record request : Type := Request {
  operation : string;
  subject : string;
  operands : list string
}.

(** The engines behind those decorators: the tokenizer of the
    neuro-symbolic engine, its [max_tokens] property and the reply to a
    request. *)
Class Backend : Type := {
  tokenizer_encode : string -> list nat;
  engine_max_tokens : Z;
  engine_reply : request -> pyval
}.

(** [repr(v)], the interpreter's, which is also what [str()] of a
    [KeyError] raised by a dict lookup shows of the key. *)
Class PyRepr : Type := {
  py_repr : heap -> pyval -> string
}.

Definition nl : string := String (ascii_of_nat 10) EmptyString.

(** [sep.join(parts)] *)
Definition join (sep : string) (parts : list string) : string :=
  String.concat sep parts.

Definition new_object (o : obj) (h : heap) : addr * heap :=
  let a := fresh (dom h) in (a, <[a := o]> h).

Definition is_symbol (h : heap) (v : pyval) : option instance :=
  match v with
  | PRef a => match h !! a with Some (OSymbol s) => Some s | _ => None end
  | _ => None
  end.

(** [v.value if isinstance(v, Symbol) else v] *)
Definition unwrap (h : heap) (v : pyval) : pyval :=
  match is_symbol h v with Some s => value s | None => v end.

(** ** Python string and list methods

    A character is a code point below 256. *)

(** [c.isspace()] *)
Definition is_space (c : ascii) : bool :=
  let n := nat_of_ascii c in
  ((9 <=? n) && (n <=? 13) || (28 <=? n) && (n <=? 32) || (n =? 133) || (n =? 160))%nat.

Definition is_empty (s : string) : bool :=
  match s with EmptyString => true | String _ _ => false end.

(** [s.lstrip()], [s.rstrip()] and [s.strip()] *)
Fixpoint lstrip (s : string) : string :=
  match s with
  | EmptyString => EmptyString
  | String c r => if is_space c then lstrip r else s
  end.

Fixpoint rstrip (s : string) : string :=
  match s with
  | EmptyString => EmptyString
  | String c r =>
      let r' := rstrip r in
      if is_space c && is_empty r' then EmptyString else String c r'
  end.

Definition strip (s : string) : string := lstrip (rstrip s).

(** [s.split(sep)] for a non-empty separator: leftmost matches, which do
    not overlap.  [skip] counts the characters of a matched separator that
    are still to be passed over. *)
Fixpoint split_from (sep : string) (skip : nat) (s : string) : list string :=
  match s with
  | EmptyString => [EmptyString]
  | String c r =>
      match skip with
      | S k => split_from sep k r
      | O =>
          if String.prefix sep s
          then EmptyString :: split_from sep (String.length sep - 1) r
          else match split_from sep 0 r with
               | w :: ws => String c w :: ws
               | [] => [String c EmptyString]
               end
      end
  end.

Definition split (sep : string) (s : string) : list string := split_from sep 0 s.

(** [s.split()]: the whitespace-delimited units of [s]. *)
Fixpoint words (s : string) : list string :=
  match s with
  | EmptyString => []
  | String c r =>
      if is_space c then words r
      else match r with
           | EmptyString => [String c EmptyString]
           | String c' _ =>
               if is_space c' then String c EmptyString :: words r
               else match words r with
                    | w :: ws => String c w :: ws
                    | [] => [String c EmptyString]
                    end
           end
  end.

(** [l[start:]] for a Python list and an integer [start]. *)
Definition slice_from {A : Type} (start : Z) (l : list A) : list A :=
  let n := Z.of_nat (List.length l) in
  let i := if start <? 0 then Z.max 0 (n + start) else Z.min start n in
  drop (Z.to_nat i) l.

(** [s[k:]] for a string and [0 <= k]. *)
Fixpoint string_drop (k : nat) (s : string) : string :=
  match k, s with
  | O, _ => s
  | S k', String _ r => string_drop k' r
  | S _, EmptyString => EmptyString
  end.

(** [sub in s] *)
Fixpoint contains (sub s : string) : bool :=
  String.prefix sub s ||
  match s with
  | EmptyString => false
  | String _ r => contains sub r
  end.

(** [s.endswith(suffix)] *)
Definition endswith (s suffix : string) : bool :=
  (String.length suffix <=? String.length s)%nat &&
  String.eqb (string_drop (String.length s - String.length suffix) s) suffix.

(** [s.replace(old, new)] for a non-empty [old]: every leftmost
    non-overlapping occurrence, which is what joining the parts of
    [s.split(old)] with [new] gives. *)
Definition replace (old new s : string) : string := join new (split old s).

(** [os.path.join(a, *p)] on a POSIX system: a component that starts with
    a slash drops what came before it, and a slash is put between two
    components unless the first is empty or ends in one. *)
Definition os_path_join (a : string) (p : list string) : string :=
  fold_left (fun path b =>
               if String.prefix "/" b then b
               else if is_empty path || endswith path "/" then path +:+ b
               else path +:+ "/" +:+ b)
            p a.

(** The process as the operators see it: the heap and the log of the
    requests sent to an engine. *)
(** ** Python floats

    A [float] is an IEEE 754 binary64 number.  The operations are those of
    the Standard Library's [SpecFloat], which round to the nearest double,
    ties to even, as the interpreter does. *)

Definition float : Type := spec_float.

Definition float_prec : Z := 53.

Definition float_emax : Z := 1024.

(** [float(z)] for an [int] [z], as the arithmetic operators convert an
    [int] operand: correctly rounded, and [OverflowError] where the rounded
    value is beyond the largest double. *)
Definition float_of_int (z : Z) : result float :=
  match binary_normalize float_prec float_emax z 0 false with
  | S754_infinity _ =>
      inr (Exception "OverflowError" "int too large to convert to float" None)
  | x => inl x
  end.

(** [x * y] for two floats. *)
Definition float_mul (x y : float) : float := SFmul float_prec float_emax x y.

(** [z * y] for an [int] and a [float]. *)
Definition int_mul_float (z : Z) (y : float) : result float :=
  match float_of_int z with
  | inl x => inl (float_mul x y)
  | inr e => inr e
  end.

(** The float that a decimal literal denotes: [float_lit 6 10] is [0.6].
    The literal is the double nearest to [n / d]; for [n] and [d] below
    [2 ^ 53] that is the correctly rounded quotient of the two. *)
Definition float_lit (n d : Z) : float :=
  SFdiv float_prec float_emax
    (binary_normalize float_prec float_emax n 0 false)
    (binary_normalize float_prec float_emax d 0 false).

(** An [int] against a [float]: Python compares the two exactly, whatever
    the size of the [int]; no order holds against a NaN. *)
Definition int_compare_float (z : Z) (x : float) : option comparison :=
  match x with
  | S754_nan => None
  | S754_zero _ => Some (z ?= 0)
  | S754_infinity s => Some (if s then Gt else Lt)
  | S754_finite s m e =>
      let v := if s then Z.neg m else Z.pos m in
      Some (if 0 <=? e then z ?= v * 2 ^ e else z * 2 ^ (- e) ?= v)
  end.

(** [z > x] *)
Definition int_gt_float (z : Z) (x : float) : bool :=
  match int_compare_float z x with
  | Some Gt => true
  | _ => false
  end.

(** [z <= x] *)
Definition int_le_float (z : Z) (x : float) : bool :=
  match int_compare_float z x with
  | Some Lt | Some Eq => true
  | _ => false
  end.

(** How a call that runs to its end leaves the object it works on: [a] is
    the object after the call, which returned or raised [e]. *)
Inductive outcome (A : Type) : Type :=
  | Returned (a : A)
  | Raised (a : A) (e : exn).

Arguments Returned {A} a.
Arguments Raised {A} a e.

Record world : Type := World {
  objects : heap;
  dispatched : list request
}.

Module Symbol.
Section WithRuntime.
Context {RT : PyRuntime} {BE : Backend}.

Definition blank (cls : string) (static_context : option string) : instance :=
  {| value := PNone; metadata := PNone; parent := PNone; children := PNone;
     _static_context := static_context; type_ := cls; extra := ∅ |}.

Definition set_value (s : instance) (v : pyval) : instance :=
  {| value := v; metadata := metadata s; parent := parent s;
     children := children s; _static_context := _static_context s;
     type_ := type_ s; extra := extra s |}.

(** The body of [Symbol.__init__(self, *value, static_context)], run on the
    object [self] that [__new__] has just put in the heap. *)
Definition __init__ (self : addr) (cls : string) (args : list pyval)
    (static_context : option string) (h : heap) : heap :=
  let s0 := blank cls static_context in
  match args with
  | [] => <[self := OSymbol s0]> h
  | [v] =>
      match v with
      | PRef a =>
          match h !! a with
          | Some (OSymbol src) =>
              <[self := OSymbol
                  {| value := value src; metadata := metadata src;
                     parent := parent src; children := children src;
                     _static_context := static_context; type_ := cls;
                     extra := ∅ |}]> h
          | Some (OList vs) =>
              let '(l, h1) := new_object (OList (map (unwrap h) vs)) h in
              <[self := OSymbol (set_value s0 (PRef l))]> h1
          | Some (ODict kvs) =>
              let '(l, h1) :=
                new_object (ODict (map (fun kv => (fst kv, unwrap h (snd kv))) kvs)) h in
              <[self := OSymbol (set_value s0 (PRef l))]> h1
          | Some (OSet vs) =>
              let '(l, h1) := new_object (OSet (py_set h (map (unwrap h) vs))) h in
              <[self := OSymbol (set_value s0 (PRef l))]> h1
          | None => <[self := OSymbol (set_value s0 v)]> h
          end
      | PTuple vs => <[self := OSymbol (set_value s0 (PTuple (map (unwrap h) vs)))]> h
      | _ => <[self := OSymbol (set_value s0 v)]> h
      end
  | _ =>
      let '(l, h1) := new_object (OList (map (unwrap h) args)) h in
      <[self := OSymbol (set_value s0 (PRef l))]> h1
  end.

(** Calling the class [cls] on [args]: allocate, then initialise. *)
Definition new (cls : string) (args : list pyval)
    (static_context : option string) (h : heap) : addr * heap :=
  let '(self, h1) := new_object (OSymbol (blank cls static_context)) h in
  (self, __init__ self cls args static_context h1).

(** [Symbol(x)] as the source writes it, with the default static context. *)
Definition Symbol_ (args : list pyval) (h : heap) : addr * heap :=
  new "<class 'symai.symbol.Symbol'>" args (Some "") h.

(** [Symbol.__str__]; numpy arrays are not among the values. *)
Definition __str__ (h : heap) (s : instance) : string :=
  match value s with
  | PNone => ""
  | PTuple vs => py_str_list (map (py_str h) vs)
  | PRef a =>
      match h !! a with
      | Some (OList vs) => py_str_list (map (py_str h) vs)
      | Some (ODict kvs) =>
          py_str_dict h (map (fun kv => (fst kv, py_str h (snd kv))) kvs)
      | Some (OSet vs) => py_str_set (map (py_str h) vs)
      | _ => py_str h (value s)
      end
  | v => py_str h v
  end.

(** [str(x)] for any [x]: a [Symbol] answers with its own [__str__]. *)
Definition str (h : heap) (v : pyval) : string :=
  match is_symbol h v with
  | Some s => __str__ h s
  | None => py_str h v
  end.

(** Modelled from the spec: the property [tokens] is one of the primitives
    that [symai/ops] mixes into [Symbol] and its source is missing.
    Following section 4.1 (length is a token count of the rendered string
    form) it is the engine's tokenizer applied to [str(self)]. *)
Definition tokens (h : heap) (s : instance) : list nat :=
  tokenizer_encode (__str__ h s).

(** [Symbol.__len__] *)
Definition __len__ (h : heap) (s : instance) : nat :=
  List.length (tokens h s).

(** The truth value Python gives an object in [if x] or [bool(x)].  A
    [Symbol] answers with [Symbol.__bool__]; the recursion through nested
    symbols is bounded by [fuel], and [None] is the interpreter giving up
    (recursion limit, or a reference to no object). *)
Fixpoint truth (fuel : nat) (h : heap) (v : pyval) : option bool :=
  match v with
  | PNone => Some false
  | PBool b => Some b
  | PInt z => Some (negb (z =? 0))
  | PStr s => Some (negb (String.eqb s ""))
  | PTuple vs => Some (negb (Nat.eqb (List.length vs) 0))
  | PRef a =>
      match h !! a with
      | Some (OList vs) => Some (negb (Nat.eqb (List.length vs) 0))
      | Some (ODict kvs) => Some (negb (Nat.eqb (List.length kvs) 0))
      | Some (OSet vs) => Some (negb (Nat.eqb (List.length vs) 0))
      | Some (OSymbol s) =>
          match fuel with
          | O => None
          | S fuel' =>
              match value s with
              | PBool b => Some b
              | PNone => Some false
              | w => truth fuel' h w
              end
          end
      | None => None
      end
  end.

(** [Symbol.__bool__] *)
Definition __bool__ (fuel : nat) (h : heap) (s : instance) : option bool :=
  match value s with
  | PBool b => Some b
  | PNone => Some false
  | w => truth fuel h w
  end.

(** [self.__dict__] *)
Definition __dict__ (s : instance) : gmap string pyval :=
  <["value" := value s]>
  (<["metadata" := metadata s]>
  (<["parent" := parent s]>
  (<["children" := children s]>
  (<["_static_context" :=
       match _static_context s with Some c => PStr c | None => PNone end]>
  (extra s))))).

(** [Symbol.__getattr__] *)
Definition __getattr__ (h : heap) (s : instance) (key : string) : result pyval :=
  match __dict__ s !! key with
  | None =>
      match py_getattr h (value s) key with
      | inl att => inl att
      | inr (Exception cls e ctx) =>
          if String.eqb cls "AttributeError" then
            inr (Exception "AttributeError"
                   ("Cascading call failed, since object has no attribute '"
                      +:+ key +:+ "'. Original error message: " +:+ e)
                   (Some (Exception cls e ctx)))
          else inr (Exception cls e ctx)
      end
  | Some v => inl v
  end.

(** [Symbol.static_context], as class [Symbol] defines the property;
    a subclass may override it. *)
Definition static_context (s : instance) : string :=
  match _static_context s with
  | Some c => if String.eqb c "" then "" else nl +:+ "[STATIC CONTEXT]" +:+ nl +:+ c
  | None => ""
  end.

(** [Symbol.dynamic_context]; the class attribute [Symbol._dynamic_context]
    is threaded through as [dc]. *)
Definition dynamic_context (s : instance) (dc : gmap string (list string))
    : string * gmap string (list string) :=
  match dc !! type_ s with
  | None => ("", <[type_ s := []]> dc)
  | Some entries =>
      let val := join nl entries in
      (if String.eqb val "" then "" else nl +:+ "[DYNAMIC CONTEXT]" +:+ nl +:+ val, dc)
  end.

(** [Symbol.global_context] *)
Definition global_context (s : instance) (dc : gmap string (list string))
    : pyval * gmap string (list string) :=
  let st := static_context s in
  let '(dy, dc') := dynamic_context s dc in
  (PTuple [PStr st; PStr dy], dc').

(** [Symbol.__matmul__] *)
Definition __matmul__ (self other : pyval) (w : world) : addr * world :=
  let '(r, h') := Symbol_ [PStr (str (objects w) self +:+ str (objects w) other)] (objects w) in
  (r, {| objects := h'; dispatched := dispatched w |}).

(** [Symbol.__rmatmul__] *)
Definition __rmatmul__ (self other : pyval) (w : world) : addr * world :=
  let '(r, h') := Symbol_ [PStr (str (objects w) other +:+ str (objects w) self)] (objects w) in
  (r, {| objects := h'; dispatched := dispatched w |}).

(** [Symbol.__add__]: the decorated stub sends a "combine" request, and
    the reply is wrapped in a new [Symbol]. *)
Definition __add__ (self other : pyval) (w : world) : addr * world :=
  let req := {| operation := "combine"; subject := str (objects w) self;
                operands := [str (objects w) other] |} in
  let '(r, h') := Symbol_ [engine_reply req] (objects w) in
  (r, {| objects := h'; dispatched := dispatched w ++ [req] |}).

(** [a @ b]: the left operand's [__matmul__] when it is a [Symbol],
    otherwise the right operand's reflected method. *)
Definition matmul_op (a b : pyval) (w : world) : option (addr * world) :=
  match is_symbol (objects w) a, is_symbol (objects w) b with
  | Some _, _ => Some (__matmul__ a b w)
  | None, Some _ => Some (__rmatmul__ b a w)
  | None, None => None
  end.

(** Writing the attribute [value] of the object at [self]. *)
Definition assign_value (self : addr) (v : pyval) (h : heap) : heap :=
  match h !! self with
  | Some (OSymbol s) => <[self := OSymbol (set_value s v)]> h
  | _ => h
  end.

(** [Symbol.__imatmul__] *)
Definition __imatmul__ (self : addr) (other : pyval) (w : world) : addr * world :=
  let '(r, h') :=
    Symbol_ [PStr (str (objects w) (PRef self) +:+ str (objects w) other)] (objects w) in
  (self, {| objects := assign_value self (PRef r) h'; dispatched := dispatched w |}).

(** [Symbol.__iadd__] *)
Definition __iadd__ (self : addr) (other : pyval) (w : world) : addr * world :=
  let '(r, w') := __add__ (PRef self) other w in
  (self, {| objects := assign_value self (PRef r) (objects w');
            dispatched := dispatched w' |}).

(** [Symbol.__sub__]: the decorated stub sends a "replace" request with the
    empty string as the replacement. *)
Definition __sub__ (self other : pyval) (w : world) : addr * world :=
  let req := {| operation := "replace"; subject := str (objects w) self;
                operands := [str (objects w) other; ""] |} in
  let '(r, h') := Symbol_ [engine_reply req] (objects w) in
  (r, {| objects := h'; dispatched := dispatched w ++ [req] |}).

(** [Symbol.__isub__] *)
Definition __isub__ (self : addr) (other : pyval) (w : world) : addr * world :=
  let '(val, w') := __sub__ (PRef self) other w in
  let v := match is_symbol (objects w') (PRef val) with
           | Some s => value s
           | None => PNone
           end in
  (self, {| objects := assign_value self v (objects w');
            dispatched := dispatched w' |}).

(** [Symbol.__truediv__]; [str.split] raises [ValueError] on an empty
    separator. *)
Definition __truediv__ (self other : pyval) (w : world) : result (addr * world) :=
  let text := str (objects w) self in
  let sep := str (objects w) other in
  if is_empty sep then inr (Exception "ValueError" "empty separator" None)
  else
    let '(l, h1) := new_object (OList (map PStr (split sep text))) (objects w) in
    let '(r, h2) := Symbol_ [PRef l] h1 in
    inl (r, {| objects := h2; dispatched := dispatched w |}).

(** A key that is an [int] (a [bool] is one), as the number it stands for. *)
Definition index_key (key : pyval) : option Z :=
  match key with
  | PInt z => Some z
  | PBool b => Some (if b then 1 else 0)
  | _ => None
  end.

(** [seq[i]] on a list or tuple of items: [None] where Python raises
    [IndexError]. *)
Definition seq_get (i : Z) (vs : list pyval) : option pyval :=
  let n := Z.of_nat (List.length vs) in
  let j := if i <? 0 then i + n else i in
  if (0 <=? j) && (j <? n) then nth_error vs (Z.to_nat j) else None.

(** [k == key] for a key that is a [str] or an [int]. *)
Definition key_matches (key k : pyval) : bool :=
  match key, k with
  | PStr a, PStr b => String.eqb a b
  | _, _ =>
      match index_key key, index_key k with
      | Some x, Some y => x =? y
      | _, _ => false
      end
  end.

(** [d[key]] on the items of a dict: [None] where Python raises
    [KeyError]. *)
Fixpoint dict_get (key : pyval) (kvs : list (pyval * pyval)) : option pyval :=
  match kvs with
  | [] => None
  | (k, v) :: rest => if key_matches key k then Some v else dict_get key rest
  end.

(** [d[key] = v] on the items of a dict: the value of an existing key is
    replaced where it stands, a new key goes to the end. *)
Fixpoint dict_set (key v : pyval) (kvs : list (pyval * pyval)) : list (pyval * pyval) :=
  match kvs with
  | [] => [(key, v)]
  | (k, v0) :: rest =>
      if key_matches key k then (k, v) :: rest else (k, v0) :: dict_set key v rest
  end.

(** Modelled from the spec: the fallback of [__getitem__], a stub decorated
    with [core.getitem], sends one "getitem" request about the subject and
    the key; the source wraps the reply in a new [Symbol]. *)
Definition getitem_dispatch (self key : pyval) (w : world) : pyval * world :=
  let req := {| operation := "getitem"; subject := str (objects w) self;
                operands := [str (objects w) key] |} in
  let '(r, h') := Symbol_ [engine_reply req] (objects w) in
  (PRef r, {| objects := h'; dispatched := dispatched w ++ [req] |}).

Context {RP : PyRepr}.

(** [Symbol.__getitem__] for a key that is no slice. *)
Definition __getitem__ (self : addr) (key : pyval) (w : world) : result (pyval * world) :=
  let h := objects w in
  match h !! self with
  | Some (OSymbol s) =>
      let sequence :=
        match value s with
        | PTuple vs => Some (vs, "tuple")
        | PRef a => match h !! a with Some (OList vs) => Some (vs, "list") | _ => None end
        | _ => None
        end in
      let mapping :=
        match value s with
        | PRef a => match h !! a with Some (ODict kvs) => Some kvs | _ => None end
        | _ => None
        end in
      match index_key key, sequence, key, mapping with
      | Some i, Some (vs, kind), _, _ =>
          match seq_get i vs with
          | Some v => inl (v, w)
          | None => inr (Exception "IndexError" (kind +:+ " index out of range") None)
          end
      | Some _, None, _, Some kvs
      | None, _, PStr _, Some kvs =>
          match dict_get key kvs with
          | Some v => inl (v, w)
          | None =>
              inr (Exception "KeyError"
                     (py_repr h (PStr ("Key " +:+ py_str h key +:+ " not found in "
                                         +:+ py_str h (value s))))
                     (Some (Exception "KeyError" (py_repr h key) None)))
          end
      | _, _, _, _ => inl (getitem_dispatch (PRef self) key w)
      end
  | _ => inl (getitem_dispatch (PRef self) key w)
  end.

(** Modelled from the spec: the fallback of [__setitem__], a stub decorated
    with [core.setitem], sends one "setitem" request about the subject, the
    key and the value; the source makes the payload of the wrapped reply
    the payload. *)
Definition setitem_dispatch (self : addr) (key v : pyval) (w : world) : world :=
  let req := {| operation := "setitem"; subject := str (objects w) (PRef self);
                operands := [str (objects w) key; str (objects w) v] |} in
  let '(r, h') := Symbol_ [engine_reply req] (objects w) in
  let payload := match is_symbol h' (PRef r) with
                 | Some s => value s
                 | None => PNone
                 end in
  {| objects := assign_value self payload h'; dispatched := dispatched w ++ [req] |}.

(** [Symbol.__setitem__] for a key that is no slice; the result is the
    world after the assignment. *)
Definition __setitem__ (self : addr) (key v : pyval) (w : world) : result world :=
  let h := objects w in
  match h !! self with
  | Some (OSymbol s) =>
      match index_key key, value s, key with
      | Some i, PTuple _, _ =>
          inr (Exception "TypeError" "'tuple' object does not support item assignment" None)
      | Some i, PRef a, _ =>
          match h !! a with
          | Some (OList vs) =>
              let n := Z.of_nat (List.length vs) in
              let j := if i <? 0 then i + n else i in
              if (0 <=? j) && (j <? n)
              then inl {| objects := <[a := OList (<[Z.to_nat j := v]> vs)]> h;
                          dispatched := dispatched w |}
              else inr (Exception "IndexError" "list assignment index out of range" None)
          | Some (ODict kvs) =>
              inl {| objects := <[a := ODict (dict_set key v kvs)]> h;
                     dispatched := dispatched w |}
          | _ => inl (setitem_dispatch self key v w)
          end
      | None, PRef a, PStr _ =>
          match h !! a with
          | Some (ODict kvs) =>
              inl {| objects := <[a := ODict (dict_set key v kvs)]> h;
                     dispatched := dispatched w |}
          | _ => inl (setitem_dispatch self key v w)
          end
      | _, _, _ => inl (setitem_dispatch self key v w)
      end
  | _ => inl (setitem_dispatch self key v w)
  end.

End WithRuntime.
End Symbol.

(** ** [symai/memory.py] *)

Module SlidingWindowListMemory.

Record t : Type := Make {
  _memory : list string;
  _window_size : Z;
  _max_size : Z
}.

(** [SlidingWindowListMemory.__init__] *)
Definition __init__ (window_size max_size : Z) : t :=
  {| _memory := []; _window_size := window_size; _max_size := max_size |}.

(** [SlidingWindowListMemory.store] *)
Definition store (self : t) (query : string) : t :=
  let m := (_memory self ++ [query])%list in
  if Z.of_nat (List.length m) >? _max_size self
  then {| _memory := slice_from (- _max_size self) m;
          _window_size := _window_size self; _max_size := _max_size self |}
  else {| _memory := m;
          _window_size := _window_size self; _max_size := _max_size self |}.

(** [SlidingWindowListMemory.recall] *)
Definition recall (self : t) : list string :=
  slice_from (- _window_size self) (_memory self).

(** Storing a sequence of entries, one call after the other. *)
Definition store_all (self : t) (queries : list string) : t :=
  fold_left store queries self.

(** [l.remove(x)] on a list of [str] objects: the list without its first
    item equal to [x], and [None] where Python raises [ValueError]. *)
Fixpoint list_remove (x : string) (l : list string) : option (list string) :=
  match l with
  | [] => None
  | y :: r =>
      if String.eqb y x then Some r
      else match list_remove x r with
           | Some r' => Some (y :: r')
           | None => None
           end
  end.

(** [SlidingWindowListMemory.forget], for a [query] that is a [str]. *)
Definition forget (self : t) (query : string) : result t :=
  match list_remove query (_memory self) with
  | Some m =>
      inl {| _memory := m; _window_size := _window_size self;
             _max_size := _max_size self |}
  | None => inr (Exception "ValueError" "list.remove(x): x not in list" None)
  end.

(** [Memory.forward] *)
Definition forward (self : t) : list string := recall self.

End SlidingWindowListMemory.

Module SlidingWindowStringConcatMemory.
Section WithBackend.
Context {BE : Backend}.

Record t : Type := Make {
  _memory : string;
  marker : string;
  token_ratio : float
}.

(** [SlidingWindowStringConcatMemory.__init__] *)
Definition __init__ (token_ratio : float) : t :=
  {| _memory := ""; marker := "[--++=|=++--]"; token_ratio := token_ratio |}.

(** The default of [token_ratio], the literal [0.6]. *)
Definition default_token_ratio : float := float_lit 6 10.

(** [len(Symbol(text))] for a string [text], see [len_of_text_Symbol]. *)
Definition len (text : string) : nat := List.length (tokenizer_encode text).

(** [self.max_tokens() * self.token_ratio]: the product of an [int] and a
    [float], rounded as floats are. *)
Definition budget (self : t) : result float :=
  int_mul_float engine_max_tokens (token_ratio self).

(** The loop condition [tokens > self.max_tokens() * self.token_ratio]. *)
Definition over_budget (self : t) (text : string) : result bool :=
  match budget self with
  | inl b => inl (int_gt_float (Z.of_nat (len text)) b)
  | inr e => inr e
  end.

(** One pass through the body of the loop: the new [self._memory]. *)
Definition evict (text : string) : string :=
  let val := strip text in
  let val := tl (split " " val) in
  join " " val.

(** The [while] loop of [store], from the buffer [text] to the buffer it
    leaves; [None] when [fuel] passes are not enough. *)
Fixpoint evict_loop (self : t) (fuel : nat) (text : string) : option (outcome string) :=
  match over_budget self text with
  | inl true =>
      match fuel with
      | O => None
      | S fuel' => evict_loop self fuel' (evict text)
      end
  | inl false => Some (Returned text)
  | inr e => Some (Raised text e)
  end.

(** [self._memory] right after the append in [store]; [query] stands for
    [str(query)]. *)
Definition appended (self : t) (query : string) : string :=
  _memory self +:+ query +:+ marker self.

(** [SlidingWindowStringConcatMemory.store].  One pass more than the buffer
    has characters is all the loop can need: [None] is a loop that never
    exits, see [evict_loop_diverges]. *)
Definition store (self : t) (query : string) : option (outcome t) :=
  let buffer := appended self query in
  match evict_loop self (S (String.length buffer)) buffer with
  | Some (Returned text) =>
      Some (Returned {| _memory := text; marker := marker self;
                        token_ratio := token_ratio self |})
  | Some (Raised text e) =>
      Some (Raised {| _memory := text; marker := marker self;
                      token_ratio := token_ratio self |} e)
  | None => None
  end.

(** [SlidingWindowStringConcatMemory.history] *)
Definition history (self : t) : list string := split (marker self) (_memory self).

(** [SlidingWindowStringConcatMemory.drop] *)
Definition drop (self : t) : t :=
  {| _memory := ""; marker := marker self; token_ratio := token_ratio self |}.

(** Modelled from the spec: [Symbol.query] is one of the primitives that
    [symai/ops] mixes into [Symbol] and its source is missing.  Following
    section 4.2 it sends one "query" request whose subject is the rendered
    string form of the symbol, and returns the engine's reply. *)
Definition query {RT : PyRuntime} (self : pyval) (context : string) (w : world)
    : pyval * world :=
  let req := {| operation := "query"; subject := Symbol.str (objects w) self;
                operands := [context] |} in
  (engine_reply req,
   {| objects := objects w; dispatched := (dispatched w ++ [req])%list |}).

(** [SlidingWindowStringConcatMemory.recall] *)
Definition recall {RT : PyRuntime} (self : t) (query_ : string) (w : world)
    : pyval * world :=
  let val := history self in
  let val := join "" val in
  let '(sym, h1) := Symbol.Symbol_ [PStr (_memory self)] (objects w) in
  query (PRef sym) query_ {| objects := h1; dispatched := dispatched w |}.

(** Storing a sequence of texts, one call after the other, as long as
    the calls return. *)
Definition store_all (self : t) (queries : list string) : option t :=
  fold_left (fun acc query_ =>
               match acc with
               | Some m =>
                   match store m query_ with
                   | Some (Returned m') => Some m'
                   | _ => None
                   end
               | None => None
               end)
            queries (Some self).

End WithBackend.
End SlidingWindowStringConcatMemory.

(** ** [symai/extended/document.py] *)

(** The collaborators of the retrieval pipeline, none of them among the
    sources: the embedding engine, the paragraph formatter, the file reader
    and the nearest-neighbour search of the vector index; the home
    directory that [os.path.expanduser('~')] gives; and [Symbol.save],
    where [save_text path text] is what [Symbol(text).save(path,
    replace=True)] raises, [None] when it returns. *)
Class Services : Type := {
  embed : string -> list Z;
  paragraph_format : string -> list string;
  read_file : string -> result string;
  nearest : list (list Z * string) -> list Z -> nat -> list string;
  expanduser_home : string;
  save_text : string -> string -> option exn
}.

(** What the pipeline can change: the named vector indices, the number of
    calls made to the embedding engine, the paths handed to the file
    reader, the texts handed to the formatter, and the calls of
    [Symbol.save], each with its path and the text to save. *)
Record store_state : Type := StoreState {
  indices : gmap string (list (list Z * string));
  embed_calls : nat;
  files_read : list string;
  formatted : list string;
  written : list (string * string)
}.

Module Indexer.
Section WithServices.
Context {SV : Services}.

Record t : Type := Make {
  index_name : string;
  top_k : nat
}.

(** Modelled from the spec: class [Indexer] lives in [symai/components.py],
    which is missing.  Following section 4.5, [exists] tells whether the
    named index is there. *)
Definition exists_ (self : t) (st : store_state) : bool :=
  bool_decide (is_Some (indices st !! index_name self)).

(** Modelled from the spec: [Indexer.register] of the missing
    [symai/components.py]; it makes sure the named index is there. *)
Definition register (self : t) (st : store_state) : store_state :=
  match indices st !! index_name self with
  | Some _ => st
  | None =>
      {| indices := <[index_name self := []]> (indices st);
         embed_calls := embed_calls st; files_read := files_read st;
         formatted := formatted st; written := written st |}
  end.

(** Modelled from the spec: [Indexer.__call__] of the missing
    [symai/components.py].  Given a text it builds the index (section 4.5:
    the formatter cuts the text into chunks, every chunk is embedded and
    stored with its vector); given none it embeds nothing.  Either way the
    result is a handle bound to the named index. *)
Definition __call__ (self : t) (text : option string) (st : store_state)
    : t * store_state :=
  match text with
  | Some txt =>
      let chunks := paragraph_format txt in
      let old := match indices st !! index_name self with Some es => es | None => [] end in
      (self,
       {| indices := <[index_name self := (old ++ map (fun c => (embed c, c)) chunks)%list]> (indices st);
          embed_calls := (embed_calls st + List.length chunks)%nat;
          files_read := files_read st;
          formatted := (formatted st ++ [txt])%list;
          written := written st |})
  | None => (self, st)
  end.

(** Modelled from the spec: a query through the handle that
    [Indexer.__call__] returns (section 4.5): the query text is embedded
    and the texts of the top-k nearest entries come back. *)
Definition retrieve (handle : t) (q : string) (st : store_state)
    : list string * store_state :=
  let es := match indices st !! index_name handle with Some es => es | None => [] end in
  (nearest es (embed q) (top_k handle),
   {| indices := indices st; embed_calls := S (embed_calls st);
      files_read := files_read st; formatted := formatted st;
      written := written st |}).

End WithServices.
End Indexer.

Module DocumentRetriever.
Section WithServices.
Context {SV : Services}.

(** The [file] argument: a path (a [str]) or any other object, kept
    through its [str(file)]. *)
Inductive file_source : Type :=
  | Path (file_path : string)
  | Other (rendered : string).

Record t : Type := Make {
  index : Indexer.t;
  text : pyval
}.

(** [os.path.join(path, 'dump_file')] for the [path] that is
    [os.path.join(os.path.expanduser('~'), '.symai', 'temp', index_name)]. *)
Definition dump_path (index_name : string) : string :=
  let path := os_path_join expanduser_home [".symai"; "temp"; index_name] in
  os_path_join path ["dump_file"].

(** [DocumentRetriever.dump] on a retriever whose [text] is the [Symbol]
    that [__init__] has just made, which is never [None]: the call of
    [Symbol.save] and what it raises. *)
Definition dump (txt path : string) (st : store_state) : result store_state :=
  let st' := {| indices := indices st; embed_calls := embed_calls st;
                files_read := files_read st; formatted := formatted st;
                written := (written st ++ [(path, txt)])%list |} in
  match save_text path txt with
  | None => inl st'
  | Some e => inr e
  end.

(** [DocumentRetriever.__init__]; [text] holds the payload of
    [Symbol(text)]. *)
Definition __init__ (file : option file_source) (index_name : string)
    (top_k : nat) (overwrite : bool) (st : store_state) : result (t * store_state) :=
  match file with
  | None => inr (Exception "ValueError" "File path must be provided." None)
  | Some f =>
      let indexer := {| Indexer.index_name := index_name; Indexer.top_k := top_k |} in
      if negb (Indexer.exists_ indexer st) || overwrite then
        let st1 := Indexer.register indexer st in
        let read :=
          match f with
          | Path file_path =>
              match read_file file_path with
              | inl txt =>
                  inl (txt,
                       {| indices := indices st1; embed_calls := embed_calls st1;
                          files_read := (files_read st1 ++ [file_path])%list;
                          formatted := formatted st1; written := written st1 |})
              | inr e => inr e
              end
          | Other rendered => inl (rendered, st1)
          end in
        match read with
        | inl (txt, st2) =>
            let '(ix, st3) := Indexer.__call__ indexer (Some txt) st2 in
            match dump txt (dump_path index_name) st3 with
            | inl st4 => inl ({| index := ix; text := PStr txt |}, st4)
            | inr e => inr e
            end
        | inr e => inr e
        end
      else
        let '(ix, st1) := Indexer.__call__ indexer None st in
        inl ({| index := ix; text := PNone |}, st1)
  end.

(** [DocumentRetriever.forward] *)
Definition forward (self : t) (q : string) (st : store_state)
    : list string * store_state :=
  Indexer.retrieve (index self) q st.

End WithServices.
End DocumentRetriever.

(** ** [symai/extended/file_merger.py] *)

Module FileMerger.
Section WithServices.
Context {SV : Services}.

(** [os.walk(root_path)]: for every directory met, its path, the names of
    its sub-directories and the names of its files. *)
Variable os_walk : string -> list (string * list string * list string).

Record t : Type := Make {
  file_endings : list string;
  file_excludes : list string
}.

(** [FileMerger.__init__] with its default arguments. *)
Definition __init__ : t :=
  {| file_endings := [".py"; ".md"; ".txt"; ".sh"; ".pdf"; ".json"; ".yaml"];
     file_excludes := ["__init__.py"; "__pycache__"; "LICENSE"; "requirements.txt";
                       "environment.yaml"; ".git"] |}.

(** [os.path.join(root, file)] on a POSIX system. *)
Definition path_join (root file : string) : string :=
  if String.prefix "/" file then file
  else if is_empty root || endswith root "/" then root +:+ file
  else root +:+ "/" +:+ file.

(** [any(exclude in file_path for exclude in self.file_excludes)] *)
Definition excluded (self : t) (file_path : string) : bool :=
  existsb (fun exclude => contains exclude file_path) (file_excludes self).

(** [file.endswith(tuple(self.file_endings))] *)
Definition has_ending (self : t) (file : string) : bool :=
  existsb (fun ending => endswith file ending) (file_endings self).

(** The text a file adds to the merged one. *)
Definition framed (file_path file_content : string) : string :=
  ("# ----[FILE_START] " +:+ file_path +:+ nl) +:+ file_content +:+
  (nl +:+ "# ----[FILE_END] " +:+ file_path +:+ nl).

(** The inner loop of [forward] over the files of one directory; the state
    is the merged text with the paths handed to the reader so far. *)
Fixpoint merge_files (self : t) (root : string) (files : list string)
    (acc : string * list string) : result (string * list string) :=
  match files with
  | [] => inl acc
  | file :: rest =>
      let file_path := path_join root file in
      if excluded self file_path then merge_files self root rest acc
      else if has_ending self file then
        match read_file file_path with
        | inl file_content =>
            merge_files self root rest
              (fst acc +:+ framed file_path file_content, (snd acc ++ [file_path])%list)
        | inr e => inr e
        end
      else merge_files self root rest acc
  end.

(** The outer loop of [forward] over the directories. *)
Fixpoint merge_walk (self : t) (walk : list (string * list string * list string))
    (acc : string * list string) : result (string * list string) :=
  match walk with
  | [] => inl acc
  | (root, _, files) :: rest =>
      match merge_files self root files acc with
      | inl acc' => merge_walk self rest acc'
      | inr e => inr e
      end
  end.

(** [FileMerger.forward]: the merged text, which the source wraps in a
    [Symbol], with the paths read on the way. *)
Definition forward (self : t) (root_path : string) : result (string * list string) :=
  merge_walk self (os_walk root_path) ("", []).

End WithServices.
End FileMerger.

(** ** [symai/shellsv.py] *)

Module FileHistory.

(** [list(dict.fromkeys(lines))]: every line once, where it comes first. *)
Fixpoint unique_from (seen : list string) (lines : list string) : list string :=
  match lines with
  | [] => []
  | line :: rest =>
      if existsb (String.eqb line) seen then unique_from seen rest
      else line :: unique_from (line :: seen) rest
  end.

(** [FileHistory.load_history_strings]; [file] is what [f.readlines()]
    gives, [None] when the file does not exist. *)
Definition load_history_strings (file : option (list string)) : list string :=
  let lines :=
    match file with
    | Some lines =>
        let lines :=
          List.filter
            (fun line => negb (is_empty (strip line)) && negb (String.prefix "#" line))
            lines in
        let lines := map rstrip lines in
        unique_from [] lines
    | None => []
    end in
  rev lines.

(** [FileHistory.store_string]: the text of the file after the writes,
    from its text before. *)
Definition store_string (content : string) (string_ : string) : string :=
  fold_left (fun written line => written +:+ (line +:+ nl)) (split nl string_) content.

End FileHistory.

Module PathCompleter.
Section WithFileSystem.

(** The file system as the completer sees it: [os.path.expanduser('~')],
    [glob.glob], [os.path.isdir] and [os.path.isfile]; the separator is
    that of a POSIX system. *)
Variable home : string.
Variable glob_ : string -> list string.
Variable isdir : string -> bool.
Variable isfile : string -> bool.

Definition sep : string := "/".

(** A [prompt_toolkit] document, as far as the completer reads it: its
    text and [get_word_before_cursor(WORD=True)]. *)
Record document : Type := Document {
  text : string;
  word_before_cursor : string
}.

Record completion : Type := Completion {
  completion_text : string;
  start_position : Z;
  style : string;
  selected_style : string
}.

(** The [start_position] that the loop of [get_completions] computes for
    every match. *)
Definition start_of (text_ : string) : Z :=
  let command_words := split " " text_ in
  if (1 <? List.length command_words)%nat then
    let start_position :=
      Z.of_nat (String.length text_)
      - Z.of_nat (String.length (join " " (removelast command_words))) - 1 in
    Z.max 0 start_position
  else Z.of_nat (String.length text_).

(** One pass of that loop: where the match [file] goes. *)
Definition sort_match (doc : document) (acc : list string * list string) (file : string)
    : list string * list string :=
  let file := if contains " " file then replace " " "\ " file else file in
  if (String.prefix "cd" (text doc) || String.prefix "mkdir" (text doc)) && isfile file
  then acc
  else if isdir file then ((fst acc ++ [file])%list, snd acc)
  else (fst acc, (snd acc ++ [file])%list).

(** [PathCompleter.get_completions], as the list of what it yields. *)
Definition get_completions (doc : document) : list completion :=
  let complete_word := word_before_cursor doc in
  let complete_word :=
    if String.prefix ("~" +:+ sep) complete_word
    then replace ("~" +:+ sep) home complete_word
    else complete_word in
  let files := glob_ (complete_word +:+ "*") in
  let '(dirs_, files_) := fold_left (sort_match doc) files ([], []) in
  let start_position := start_of (text doc) in
  (map (fun d => {| completion_text := d +:+ sep; start_position := - start_position;
                    style := "class:path-completion";
                    selected_style := "class:path-completion-selected" |}) dirs_
   ++ map (fun f => {| completion_text := f; start_position := - start_position;
                       style := "class:file-completion";
                       selected_style := "class:file-completion-selected" |}) files_)%list.

End WithFileSystem.
End PathCompleter.

(** ** A reference runtime

    The interpreter's side for the examples: [str()], [repr()] and
    [getattr()] on the values of the model, as CPython has them.  Two
    things are fixed here that Python leaves open or answers with an
    error: a set lists its items in the order given, the first of equal
    items kept, and a [Symbol] met again while it is being rendered, where
    Python raises [RecursionError], is shown as three dots. *)

Definition type_name (h : heap) (v : pyval) : string :=
  match v with
  | PNone => "NoneType"
  | PBool _ => "bool"
  | PInt _ => "int"
  | PStr _ => "str"
  | PTuple _ => "tuple"
  | PRef a =>
      match h !! a with
      | Some (OList _) => "list"
      | Some (ODict _) => "dict"
      | Some (OSet _) => "set"
      | _ => "object"
      end
  end.

Definition quote (s : string) : string := "'" +:+ s +:+ "'".

Definition double_quote : ascii := ascii_of_nat 34.

Definition hex_digit (n : nat) : ascii :=
  nth n ["0"; "1"; "2"; "3"; "4"; "5"; "6"; "7"; "8"; "9";
         "a"; "b"; "c"; "d"; "e"; "f"]%char "0"%char.

(** One character of a string inside [repr()], between quotes [q]. *)
Definition escape (q c : ascii) : string :=
  let n := nat_of_ascii c in
  if Ascii.eqb c "\" then "\\"
  else if Ascii.eqb c q then String "\" (String q "")
  else if (n =? 10)%nat then "\n"
  else if (n =? 13)%nat then "\r"
  else if (n =? 9)%nat then "\t"
  else if ((n <? 32) || (n =? 127) || (128 <=? n) && (n <=? 160) || (n =? 173))%nat
  then "\x" +:+ String (hex_digit (n / 16)) (String (hex_digit (n mod 16)) "")
  else String c "".

Fixpoint escape_all (q : ascii) (s : string) : string :=
  match s with
  | EmptyString => ""
  | String c r => escape q c +:+ escape_all q r
  end.

(** [repr(s)] for a [str]: in single quotes, unless the string has a
    single quote and no double quote. *)
Definition repr_str (s : string) : string :=
  let q := if contains "'" s && negb (contains (String double_quote "") s)
           then double_quote else "'"%char in
  String q (escape_all q s) +:+ String q "".

(** [x == y] on items of a set, with objects compared by identity. *)
Fixpoint val_eqb (x y : pyval) : bool :=
  match x, y with
  | PNone, PNone => true
  | PStr a, PStr b => String.eqb a b
  | PTuple xs, PTuple ys =>
      (fix all2 (xs ys : list pyval) : bool :=
         match xs, ys with
         | [], [] => true
         | x :: xs', y :: ys' => val_eqb x y && all2 xs' ys'
         | _, _ => false
         end) xs ys
  | PRef a, PRef b => Nat.eqb a b
  | _, _ =>
      match Symbol.index_key x, Symbol.index_key y with
      | Some i, Some j => i =? j
      | _, _ => false
      end
  end.

Fixpoint unique_by {A : Type} (eqb : A -> A -> bool) (seen l : list A) : list A :=
  match l with
  | [] => []
  | x :: r =>
      if existsb (eqb x) seen then unique_by eqb seen r
      else x :: unique_by eqb (x :: seen) r
  end.

Definition brackets (l r : string) (items : list string) : string :=
  l +:+ join ", " items +:+ r.

Definition tuple_text (items : list string) : string :=
  match items with
  | [x] => "(" +:+ x +:+ ",)"
  | _ => brackets "(" ")" items
  end.

Definition set_text (items : list string) : string :=
  match items with
  | [] => "set()"
  | _ => brackets "{" "}" items
  end.

(** [str(v)], or [repr(v)] when [as_repr] is set, with [at_ref] for the
    objects behind references. *)
Fixpoint render_val (at_ref : bool -> addr -> string) (as_repr : bool) (v : pyval)
    : string :=
  match v with
  | PNone => "None"
  | PBool true => "True"
  | PBool false => "False"
  | PInt z => pretty z
  | PStr s => if as_repr then repr_str s else s
  | PTuple vs => tuple_text (map (render_val at_ref true) vs)
  | PRef a => at_ref as_repr a
  end.

(** The object at [a]; [visiting] are the objects being rendered around
    it.  No object is entered twice, so one step of [fuel] for every
    object of the heap is enough. *)
Fixpoint render_obj (h : heap) (fuel : nat) (visiting : list addr)
    (as_repr : bool) (a : addr) : string :=
  match fuel with
  | O => "..."
  | S fuel' =>
      let inside := existsb (Nat.eqb a) visiting in
      let val := render_val (render_obj h fuel' (a :: visiting)) in
      match h !! a with
      | Some (OList vs) =>
          if inside then "[...]" else brackets "[" "]" (map (val true) vs)
      | Some (ODict kvs) =>
          if inside then "{...}"
          else brackets "{" "}"
                 (map (fun kv => val true (fst kv) +:+ ": " +:+ val true (snd kv)) kvs)
      | Some (OSet vs) =>
          if inside then "set(...)"
          else set_text (map (val true) (unique_by val_eqb [] vs))
      | Some (OSymbol s) =>
          if inside then "..."
          else if as_repr then type_ s +:+ "(value=" +:+ val false (value s) +:+ ")"
          else
            let strs vs := map (fun v => repr_str (val false v)) vs in
            match value s with
            | PNone => ""
            | PTuple vs => brackets "[" "]" (strs vs)
            | PRef b =>
                match h !! b with
                | Some (OList vs) => brackets "[" "]" (strs vs)
                | Some (ODict kvs) =>
                    brackets "{" "}"
                      (map (fun kv => val true (fst kv) +:+ ": "
                                        +:+ repr_str (val false (snd kv))) kvs)
                | Some (OSet vs) =>
                    set_text (map repr_str
                                (unique_by String.eqb [] (map (val false) vs)))
                | _ => val false (value s)
                end
            | v => val false v
            end
      | None => "..."
      end
  end.

Definition ref_str (h : heap) (v : pyval) : string :=
  render_val (render_obj h (S (size h)) []) false v.

Definition ref_repr (h : heap) (v : pyval) : string :=
  render_val (render_obj h (S (size h)) []) true v.

(** [getattr(v, key)]: the attributes of a [Symbol] are those of its
    [__dict__]; of the payloads of other types only attributes that their
    types do not have are asked for in the examples. *)
Definition ref_getattr (h : heap) (v : pyval) (key : string) : result pyval :=
  match is_symbol h v with
  | Some s =>
      match Symbol.__dict__ s !! key with
      | Some x => inl x
      | None =>
          inr (Exception "AttributeError"
                 ("'Symbol' object has no attribute " +:+ quote key) None)
      end
  | None =>
      inr (Exception "AttributeError"
             (quote (type_name h v) +:+ " object has no attribute " +:+ quote key) None)
  end.

#[export] Instance reference_runtime : PyRuntime := {|
  py_str := ref_str;
  py_str_list := fun l => brackets "[" "]" (map repr_str l);
  py_str_dict := fun h kvs =>
    brackets "{" "}"
      (map (fun kv => ref_repr h (fst kv) +:+ ": " +:+ repr_str (snd kv)) kvs);
  py_str_set := fun l => set_text (map repr_str (unique_by String.eqb [] l));
  py_set := fun _ vs => unique_by val_eqb [] vs;
  py_getattr := ref_getattr;
  py_str_of_str := fun _ _ => eq_refl
|}.

#[export] Instance reference_repr : PyRepr := {|
  py_repr := ref_repr
|}.

(** ** Reference engines

    Two tokenizers for the examples.  The first counts whitespace-delimited
    units; the second works character by character except that it knows
    the three characters " bc" as one token, the way the vocabulary of a
    byte-pair encoder holds a word together with its leading space. *)

Definition word_tokenizer (s : string) : list nat := map String.length (words s).

Fixpoint pair_tokenizer (s : string) : list nat :=
  match s with
  | EmptyString => []
  | String c r =>
      match r with
      | String c1 (String c2 r') =>
          if Ascii.eqb c " " && Ascii.eqb c1 "b" && Ascii.eqb c2 "c"
          then 256%nat :: pair_tokenizer r'
          else nat_of_ascii c :: pair_tokenizer r
      | _ => nat_of_ascii c :: pair_tokenizer r
      end
  end.

(** An engine that echoes the subject of the request it is sent. *)
Definition echo_engine (tokenizer : string -> list nat) (max_tokens : Z) : Backend :=
  {| tokenizer_encode := tokenizer;
     engine_max_tokens := max_tokens;
     engine_reply := fun req => PStr (subject req) |}.

(** Reference services for the retrieval pipeline: a one-number
    embedding, one chunk per text, a reader that always finds the file, a
    search that returns the first [k] texts of the index, the home
    directory "/home/user" and a [Symbol.save] that always returns. *)
Definition plain_services : Services :=
  {| embed := fun txt => [Z.of_nat (String.length txt)];
     paragraph_format := fun txt => [txt];
     read_file := fun file_path => inl ("contents of " +:+ file_path);
     nearest := fun es _ k => take k (map snd es);
     expanduser_home := "/home/user";
     save_text := fun _ _ => None |}.

(** * Vocabulary of the properties

    What the statements below are written with: observations on the heap,
    the claims as the specification words them, and the concrete inputs
    of the examples. *)

Section Vocabulary.
Context {RT : PyRuntime}.

(** The reference a [Symbol] holds as payload, and the container found
    behind it. *)
Definition payload_ref (h : heap) (a : addr) : option addr :=
  match h !! a with
  | Some (OSymbol s) => match value s with PRef l => Some l | _ => None end
  | _ => None
  end.

Definition contents (h : heap) (a : addr) : option obj :=
  match payload_ref h a with Some l => h !! l | None => None end.

Definition is_container (o : option obj) : bool :=
  match o with
  | Some (OList _) | Some (ODict _) | Some (OSet _) => true
  | _ => false
  end.

(** [l.append(x)] on the list object at [l]. *)
Definition list_append (l : addr) (x : pyval) (h : heap) : heap :=
  match h !! l with
  | Some (OList vs) => <[l := OList (vs ++ [x])]> h
  | _ => h
  end.

(** The copy made by [Symbol(a)] is independent of [a]: appending to the
    list the copy holds leaves the list seen through [a] as it was. *)
Definition copy_is_independent (h : heap) (a : addr) : Prop :=
  forall b h1, Symbol.Symbol_ [PRef a] h = (b, h1) ->
  forall l x, payload_ref h1 b = Some l ->
  contents (list_append l x h1) a = contents h1 a.

(** Boolean coercion as C5 words it: [None] gives false, a boolean gives
    itself, anything else gives true. *)
Definition bool_coercion_as_stated (s : instance) : Prop :=
  forall fuel h,
    Symbol.__bool__ fuel h s =
      Some match value s with PNone => false | PBool b => b | _ => true end.

Definition nonempty {A : Type} (l : list A) : bool :=
  match l with [] => false | _ :: _ => true end.

(** Textual ingredients of the two contexts. *)
Definition static_text (s : instance) : string :=
  match _static_context s with Some c => c | None => "" end.

Definition dynamic_text (s : instance) (dc : gmap string (list string)) : string :=
  join nl (match dc !! type_ s with Some entries => entries | None => [] end).

(** [global_context] as C3 words it: one string, the two rendered contexts
    put one after the other. *)
Definition global_context_as_stated (s : instance) (dc : gmap string (list string)) : Prop :=
  fst (Symbol.global_context s dc) =
    PStr (Symbol.static_context s +:+ fst (Symbol.dynamic_context s dc)).

(** The marker does not show up in [entry + marker] before its own place
    at the end: no copy of it inside the entry, none straddling the end. *)
Definition marker_free (marker entry : string) : bool :=
  forallb (fun i => negb (String.prefix marker (string_drop i (entry +:+ marker))))
          (seq 0 (String.length entry)).

(** The buffer that holds the entries, each followed by the marker. *)
Definition framed_entries (marker : string) (entries : list string) : string :=
  fold_right (fun entry rest => entry +:+ marker +:+ rest) "" entries.

(** The last [k] items of a list, all of them when there are fewer. *)
Definition last_n {A : Type} (k : nat) (l : list A) : list A :=
  drop (List.length l - k) l.

End Vocabulary.

Section VocabularyOfTheMemory.
Import SlidingWindowStringConcatMemory.
Context {BE : Backend}.

(** Each pass the loop of [store] makes strictly reduces the token count,
    as C8 words it. *)
Definition each_pass_reduces_tokens (self : t) (query_ : string) : Prop :=
  forall k,
    (forall j, (j <= k)%nat ->
       over_budget self (Nat.iter j evict (appended self query_)) = inl true) ->
    (len (evict (Nat.iter k evict (appended self query_)))
       < len (Nat.iter k evict (appended self query_)))%nat.

End VocabularyOfTheMemory.

Definition Symbol_cls : string := "<class 'symai.symbol.Symbol'>".

Definition sym_of (v : pyval) : instance :=
  Symbol.set_value (Symbol.blank Symbol_cls (Some "")) v.

Definition h_list : heap := {[ 0%nat := OList [PInt 1] ]}.

(** [a = Symbol([1])] lands at address 1 and holds a fresh list at 2. *)
Definition h_sym : heap := snd (Symbol.Symbol_ [PRef 0%nat] h_list).

(** A wrapper whose payload is itself a [Symbol] carrying an extra
    attribute, as [__iadd__] and [__imatmul__] leave behind. *)
Definition inner_sym : instance :=
  {| value := PStr "x"; metadata := PNone; parent := PNone; children := PNone;
     _static_context := Some ""; type_ := Symbol_cls;
     extra := {[ "marker" := PStr "[--++=|=++--]" ]} |}.

Definition h_inner : heap := {[ 0%nat := OSymbol inner_sym ]}.

(** Two symbols, [Symbol('ab')] at 0 and [Symbol('cd')] at 1. *)
Definition w_two : world :=
  {| objects := snd (Symbol.Symbol_ [PStr "cd"] (snd (Symbol.Symbol_ [PStr "ab"] ∅)));
     dispatched := [] |}.

(** The scenario of the spec: [max_tokens() = 10], [token_ratio = 0.5],
    tokens counted as whitespace-delimited units. *)
Definition mem_half : SlidingWindowStringConcatMemory.t :=
  SlidingWindowStringConcatMemory.__init__ (float_lit 5 10).

Definition mem_half_stored : SlidingWindowStringConcatMemory.t :=
  {| SlidingWindowStringConcatMemory._memory := "two three four five six[--++=|=++--]";
     SlidingWindowStringConcatMemory.marker := "[--++=|=++--]";
     SlidingWindowStringConcatMemory.token_ratio := float_lit 5 10 |}.

(** Two entries stored under a budget that evicts nothing. *)
Definition mem_ab : SlidingWindowStringConcatMemory.t :=
  {| SlidingWindowStringConcatMemory._memory := "a[--++=|=++--]b[--++=|=++--]";
     SlidingWindowStringConcatMemory.marker := "[--++=|=++--]";
     SlidingWindowStringConcatMemory.token_ratio :=
       SlidingWindowStringConcatMemory.default_token_ratio |}.

(** An index named "docs" with one entry, and one embedding call so far. *)
Definition st_docs : store_state :=
  {| indices := {[ "docs" := [([3], "abc")] ]}; embed_calls := 1;
     files_read := []; formatted := []; written := [] |}.

Section FurtherVocabulary.
Context {RT : PyRuntime} {SV : Services}.

(** A list whose items refer to objects of the heap only. *)
Definition items_exist (h : heap) (vs : list pyval) : Prop :=
  forall b, In (PRef b) vs -> is_Some (h !! b).

(** An operand that stands for the text [t]: the [str] object itself or a
    [Symbol] whose payload it is. *)
Definition holds_text (h : heap) (v : pyval) (t : string) : Prop :=
  v = PStr t \/ exists s, is_symbol h v = Some s /\ value s = PStr t.

(** A key that is a [str] or an [int]. *)
Definition is_key (key : pyval) : bool :=
  match key with
  | PStr _ | PInt _ | PBool _ => true
  | _ => false
  end.

(** What the reader gave for a path, as the text it adds. *)
Definition frame_of (file_path : string) : string :=
  match read_file file_path with
  | inl file_content => FileMerger.framed file_path file_content
  | inr _ => ""
  end.

Definition frames (paths : list string) : string :=
  fold_left (fun text file_path => text +:+ frame_of file_path) paths "".

(** A path the merger picks from the walk: a file of a walked directory
    with one of the endings and none of the excluded names in its path. *)
Definition picked (self : FileMerger.t) (walk : list (string * list string * list string))
    (file_path : string) : Prop :=
  exists root dirs files file,
    In (root, dirs, files) walk /\ In file files /\
    file_path = FileMerger.path_join root file /\
    FileMerger.excluded self file_path = false /\
    FileMerger.has_ending self file = true.

End FurtherVocabulary.

(** A list memory of two entries, with room for no more. *)
Definition list_mem_ab : SlidingWindowListMemory.t :=
  {| SlidingWindowListMemory._memory := ["a"; "b"];
     SlidingWindowListMemory._window_size := 2;
     SlidingWindowListMemory._max_size := 2 |}.

(** A list memory that holds the same entry twice. *)
Definition list_mem_aba : SlidingWindowListMemory.t :=
  {| SlidingWindowListMemory._memory := ["a"; "b"; "a"];
     SlidingWindowListMemory._window_size := 2;
     SlidingWindowListMemory._max_size := 5 |}.

(** A dict at 0 and a [Symbol] at 1 that holds it. *)
Definition w_dict : world :=
  {| objects := {[ 0%nat := ODict [(PStr "k", PInt 1)];
                   1%nat := OSymbol (sym_of (PRef 0%nat)) ]};
     dispatched := [] |}.

(** The dict [{1: 'one', 'k': 2}] at 0 and a [Symbol] at 1 that holds it. *)
Definition w_dict_int : world :=
  {| objects := {[ 0%nat := ODict [(PInt 1, PStr "one"); (PStr "k", PInt 2)];
                   1%nat := OSymbol (sym_of (PRef 0%nat)) ]};
     dispatched := [] |}.

(** [Symbol([10, 20, 30])]: the list at 0 and the symbol at 1. *)
Definition w_list : world :=
  {| objects := {[ 0%nat := OList [PInt 10; PInt 20; PInt 30];
                   1%nat := OSymbol (sym_of (PRef 0%nat)) ]};
     dispatched := [] |}.

(** A tree whose root path contains ".git". *)
Definition walk_github (root_path : string) : list (string * list string * list string) :=
  [(root_path, ["docs"], ["readme.md"]); (root_path +:+ "/docs", [], ["a.py"])].

(** A directory with a source file, a binary and a licence. *)
Definition walk_project (root_path : string) : list (string * list string * list string) :=
  [(root_path, [], ["a.py"; "b.bin"; "LICENSE.md"])].

(** The lines of a history file: a command, a comment, a blank line, the
    first command again with spaces after it, and another command. *)
Definition history_lines : list string :=
  ["ls" +:+ nl; "# c" +:+ nl; nl; "ls  " +:+ nl; "cd x" +:+ nl].

(** A directory that holds the directory "foo" and the file "fo o.txt". *)
Definition glob_fo (pattern : string) : list string :=
  if String.eqb pattern "fo*" then ["foo"; "fo o.txt"] else [].

Definition isdir_fo (path : string) : bool := String.eqb path "foo".

Definition isfile_fo (path : string) : bool := String.eqb path "fo\ o.txt".

(** The prompt "ls fo" with the cursor at its end. *)
Definition doc_ls_fo : PathCompleter.document :=
  {| PathCompleter.text := "ls fo"; PathCompleter.word_before_cursor := "fo" |}.

(** * Properties of [Symbol] *)

Section SymbolFacts.
Context {RT : PyRuntime}.

Lemma fresh_unused (h : heap) : h !! fresh (dom h) = None.
Proof. apply not_elem_of_dom, is_fresh. Qed.

Lemma new_from_symbol (h : heap) (a : addr) (src : instance) cls ctx :
  h !! a = Some (OSymbol src) ->
  Symbol.new cls [PRef a] ctx h =
    (fresh (dom h),
     <[fresh (dom h) := OSymbol
         {| value := value src; metadata := metadata src;
            parent := parent src; children := children src;
            _static_context := ctx; type_ := cls; extra := ∅ |}]> h).
Proof.
  intros Ha. unfold Symbol.new, new_object, Symbol.__init__.
  assert (Hne : fresh (dom h) <> a).
  { intros E. pose proof (fresh_unused h) as Hf. rewrite E in Hf. congruence. }
  rewrite lookup_insert_ne by exact Hne. rewrite Ha.
  by rewrite insert_insert_eq.
Qed.

Lemma new_scalar (h : heap) (v : pyval) cls ctx :
  (forall a, v <> PRef a) -> (forall vs, v <> PTuple vs) ->
  Symbol.new cls [v] ctx h =
    (fresh (dom h),
     <[fresh (dom h) := OSymbol (Symbol.set_value (Symbol.blank cls ctx) v)]> h).
Proof.
  intros Hr Ht. unfold Symbol.new, new_object, Symbol.__init__.
  destruct v; try (by rewrite insert_insert_eq).
  - by destruct (Ht vs).
  - by destruct (Hr a).
Qed.

(** C1, as the code has it: [Symbol(a)] for a [Symbol] [a] builds a new
    object with an equal rendered string form whose payload is the very
    payload of [a].  Every object that existed before is untouched, and a
    container held as payload is shared: whatever is written to it
    afterwards is what both the original and the copy hold. *)
Theorem symbol_from_symbol_shares_payload
    (h : heap) (a : addr) (src : instance) (cls : string) (ctx : option string) :
  h !! a = Some (OSymbol src) ->
  exists b h1 cp,
    Symbol.new cls [PRef a] ctx h = (b, h1) /\
    h !! b = None /\
    h1 !! b = Some (OSymbol cp) /\
    (forall l, l <> b -> h1 !! l = h !! l) /\
    value cp = value src /\
    Symbol.__str__ h1 cp = Symbol.__str__ h1 src /\
    (forall l o, payload_ref h1 b = Some l -> is_container (h1 !! l) = true ->
       payload_ref h1 a = Some l /\
       contents (<[l := o]> h1) a = Some o /\
       contents (<[l := o]> h1) b = Some o).
Proof.
  intros Ha. eexists _, _, _. split; [by apply new_from_symbol|].
  pose proof (fresh_unused h) as Hf. set (b := fresh (dom h)) in *.
  assert (Hne : b <> a) by (intros E; rewrite E in Hf; congruence).
  split; [exact Hf|]. split; [by rewrite lookup_insert_eq|].
  split; [by intros l Hl; rewrite lookup_insert_ne|].
  split; [reflexivity|]. split; [reflexivity|].
  intros l o Hl Hc. unfold payload_ref in Hl. rewrite lookup_insert_eq in Hl.
  simpl in Hl. destruct (value src) as [| | | | |l'] eqn:Hv; try discriminate.
  injection Hl as ->.
  assert (Hlb : l <> b).
  { intros ->. rewrite lookup_insert_eq in Hc. discriminate. }
  assert (Hla : l <> a).
  { intros ->. rewrite lookup_insert_ne, Ha in Hc by done. discriminate. }
  unfold contents, payload_ref.
  rewrite lookup_insert_ne, Ha, Hv by done.
  rewrite !(lookup_insert_ne _ l) by done.
  rewrite lookup_insert_eq, lookup_insert_ne, Ha by done. simpl.
  rewrite Hv, !lookup_insert_eq. done.
Qed.

End SymbolFacts.

Example h_sym_payload : payload_ref h_sym 1%nat = Some 2%nat.
Proof. vm_compute. reflexivity. Qed.

Lemma symbol_from_symbol_shares_payload_witness :
  h_sym !! 1%nat = Some (OSymbol (Symbol.set_value
     (Symbol.blank "<class 'symai.symbol.Symbol'>" (Some "")) (PRef 2%nat))) /\
  exists b h1 cp,
    Symbol.new "<class 'symai.symbol.Symbol'>" [PRef 1%nat] (Some "") h_sym = (b, h1) /\
    h_sym !! b = None /\
    h1 !! b = Some (OSymbol cp) /\
    (forall l, l <> b -> h1 !! l = h_sym !! l) /\
    value cp = PRef 2%nat /\
    Symbol.__str__ h1 cp =
      Symbol.__str__ h1 (Symbol.set_value
        (Symbol.blank "<class 'symai.symbol.Symbol'>" (Some "")) (PRef 2%nat)) /\
    (forall l o, payload_ref h1 b = Some l -> is_container (h1 !! l) = true ->
       payload_ref h1 1%nat = Some l /\
       contents (<[l := o]> h1) 1%nat = Some o /\
       contents (<[l := o]> h1) b = Some o).
Proof.
  split; [vm_compute; reflexivity|].
  apply (symbol_from_symbol_shares_payload h_sym 1%nat
           (Symbol.set_value (Symbol.blank "<class 'symai.symbol.Symbol'>" (Some "")) (PRef 2%nat))).
  vm_compute; reflexivity.
Defined.

Example symbol_copy_run :
  contents (snd (Symbol.Symbol_ [PRef 1%nat] h_sym)) 1%nat = Some (OList [PInt 1]) /\
  payload_ref (snd (Symbol.Symbol_ [PRef 1%nat] h_sym)) 3%nat = Some 2%nat /\
  contents (list_append 2%nat (PInt 2) (snd (Symbol.Symbol_ [PRef 1%nat] h_sym))) 1%nat
    = Some (OList [PInt 1; PInt 2]).
Proof. vm_compute. done. Qed.

(** C1, as stated, fails: with [a = Symbol([1])] and [b = Symbol(a)],
    [b.value.append(2)] changes the list seen through [a]. *)
Lemma symbol_copy_not_independent : ~ copy_is_independent h_sym 1%nat.
Proof.
  intros H.
  specialize (H 3%nat _ eq_refl 2%nat (PInt 2)).
  vm_compute in H. specialize (H eq_refl). discriminate H.
Qed.

Section SymbolOperators.
Context {RT : PyRuntime}.

Lemma length_nonempty {A : Type} (l : list A) :
  negb (Nat.eqb (List.length l) 0) = nonempty l.
Proof. by destruct l. Qed.

(** C5, as the code has it: [None] gives false and a boolean gives itself;
    any other payload gives its own Python truth value, so zero, the empty
    string and the empty tuple, list, dict and set give false and every
    other integer, string, tuple, list, dict and set gives true. *)
Theorem bool_coercion_is_python_truth (fuel : nat) (h : heap) (s : instance) :
  Symbol.__bool__ fuel h (Symbol.set_value s PNone) = Some false /\
  (forall b, Symbol.__bool__ fuel h (Symbol.set_value s (PBool b)) = Some b) /\
  (forall z, Symbol.__bool__ fuel h (Symbol.set_value s (PInt z)) = Some (negb (z =? 0))) /\
  (forall t, Symbol.__bool__ fuel h (Symbol.set_value s (PStr t)) = Some (negb (String.eqb t ""))) /\
  (forall vs, Symbol.__bool__ fuel h (Symbol.set_value s (PTuple vs)) = Some (nonempty vs)) /\
  (forall l vs,
     Symbol.__bool__ fuel (<[l := OList vs]> h) (Symbol.set_value s (PRef l)) = Some (nonempty vs)) /\
  (forall l kvs,
     Symbol.__bool__ fuel (<[l := ODict kvs]> h) (Symbol.set_value s (PRef l)) = Some (nonempty kvs)) /\
  (forall l vs,
     Symbol.__bool__ fuel (<[l := OSet vs]> h) (Symbol.set_value s (PRef l)) = Some (nonempty vs)).
Proof.
  repeat split; try done; intros; unfold Symbol.__bool__; simpl;
    destruct fuel; simpl; rewrite ?lookup_insert_eq, ?length_nonempty; done.
Qed.

(** C3, as the code has it: [global_context] is the pair (a 2-tuple) of the
    rendered static context and the rendered dynamic context.  The first is
    the static text under its header when that text is non-empty and the
    empty string otherwise; the second is the newline-joined entries of the
    instance's type under their header when the joined text is non-empty
    and the empty string otherwise.  Reading it registers the type in the
    table of dynamic contexts and changes nothing else there. *)
Theorem global_context_is_pair (s : instance) (dc : gmap string (list string)) :
  exists st dy dc',
    Symbol.global_context s dc = (PTuple [PStr st; PStr dy], dc') /\
    st = (if String.eqb (static_text s) "" then ""
          else nl +:+ "[STATIC CONTEXT]" +:+ nl +:+ static_text s) /\
    dy = (if String.eqb (dynamic_text s dc) "" then ""
          else nl +:+ "[DYNAMIC CONTEXT]" +:+ nl +:+ dynamic_text s dc) /\
    dc' !! type_ s =
      Some (match dc !! type_ s with Some entries => entries | None => [] end) /\
    (forall k, k <> type_ s -> dc' !! k = dc !! k).
Proof.
  unfold Symbol.global_context, Symbol.dynamic_context, Symbol.static_context,
    static_text, dynamic_text.
  destruct (dc !! type_ s) as [entries|] eqn:Hdc.
  - eexists _, _, _. split; [reflexivity|].
    split; [by destruct (_static_context s)|].
    split; [reflexivity|]. split; [exact Hdc|]. done.
  - eexists _, _, _. split; [reflexivity|].
    split; [by destruct (_static_context s)|].
    split; [reflexivity|]. split; [by rewrite lookup_insert_eq|].
    intros k Hk. by rewrite lookup_insert_ne.
Qed.

(** C9: [Symbol.__getattr__] returns the attribute found in the wrapper's
    own [__dict__]; failing that, the attribute found on the payload; and
    when the payload raises [AttributeError] too, a single
    [AttributeError] whose message names the attribute and quotes the
    payload's message, with the payload's exception as its context. *)
Theorem getattr_cascade (h : heap) (s : instance) (key : string) :
  (forall v, Symbol.__dict__ s !! key = Some v ->
     Symbol.__getattr__ h s key = inl v) /\
  (forall v, Symbol.__dict__ s !! key = None ->
     py_getattr h (value s) key = inl v ->
     Symbol.__getattr__ h s key = inl v) /\
  (forall e ctx, Symbol.__dict__ s !! key = None ->
     py_getattr h (value s) key = inr (Exception "AttributeError" e ctx) ->
     Symbol.__getattr__ h s key =
       inr (Exception "AttributeError"
              ("Cascading call failed, since object has no attribute '"
                 +:+ key +:+ "'. Original error message: " +:+ e)
              (Some (Exception "AttributeError" e ctx)))).
Proof.
  unfold Symbol.__getattr__. repeat split.
  - by intros v ->.
  - by intros v -> ->.
  - by intros e ctx -> ->.
Qed.

Lemma Symbol_of_str (t : string) (h : heap) :
  Symbol.Symbol_ [PStr t] h =
    (fresh (dom h),
     <[fresh (dom h) := OSymbol (Symbol.set_value
         (Symbol.blank "<class 'symai.symbol.Symbol'>" (Some "")) (PStr t))]> h).
Proof. unfold Symbol.Symbol_. by apply new_scalar. Qed.

(** C10: [a @ b] on a [Symbol] [a] returns a new [Symbol] whose payload is
    the string [str(a) + str(b)], and the reflected form returns one whose
    payload is [str(b) + str(a)].  The result is a fresh object, every
    object that existed before (the operands among them) is left as it
    was, and nothing is sent to an engine. *)
Theorem matmul_concatenates (w : world) (a b : pyval) (sa sb : instance) :
  is_symbol (objects w) a = Some sa ->
  is_symbol (objects w) b = Some sb ->
  (exists r w' c,
     Symbol.matmul_op a b w = Some (r, w') /\
     objects w !! r = None /\
     objects w' !! r = Some (OSymbol c) /\
     value c = PStr (Symbol.__str__ (objects w) sa +:+ Symbol.__str__ (objects w) sb) /\
     (forall l, l <> r -> objects w' !! l = objects w !! l) /\
     dispatched w' = dispatched w) /\
  (exists r w' c,
     Symbol.__rmatmul__ a b w = (r, w') /\
     objects w !! r = None /\
     objects w' !! r = Some (OSymbol c) /\
     value c = PStr (Symbol.__str__ (objects w) sb +:+ Symbol.__str__ (objects w) sa) /\
     (forall l, l <> r -> objects w' !! l = objects w !! l) /\
     dispatched w' = dispatched w).
Proof.
  intros Ha Hb. pose proof (fresh_unused (objects w)) as Hf.
  unfold Symbol.matmul_op, Symbol.__matmul__, Symbol.__rmatmul__, Symbol.str.
  rewrite Ha, Hb, !Symbol_of_str. split.
  - eexists _, _, _. split; [reflexivity|]. simpl. split; [exact Hf|].
    split; [by rewrite lookup_insert_eq|]. split; [reflexivity|].
    split; [|reflexivity]. intros l Hl. by rewrite lookup_insert_ne.
  - eexists _, _, _. split; [reflexivity|]. simpl. split; [exact Hf|].
    split; [by rewrite lookup_insert_eq|]. split; [reflexivity|].
    split; [|reflexivity]. intros l Hl. by rewrite lookup_insert_ne.
Qed.

(** When the left operand is no [Symbol], [b @ a] is answered by the
    reflected method of [a]. *)
Lemma matmul_op_reflected (w : world) (a b : pyval) (sa : instance) :
  is_symbol (objects w) a = Some sa ->
  is_symbol (objects w) b = None ->
  Symbol.matmul_op b a w = Some (Symbol.__rmatmul__ a b w).
Proof. intros Ha Hb. unfold Symbol.matmul_op. by rewrite Ha, Hb. Qed.

(** By contrast [a + b] goes through an engine. *)
Lemma add_dispatches {BE : Backend} (w : world) (a b : pyval) :
  dispatched (snd (Symbol.__add__ a b w)) =
    (dispatched w ++
      [{| operation := "combine"; subject := Symbol.str (objects w) a;
          operands := [Symbol.str (objects w) b] |}])%list.
Proof.
  unfold Symbol.__add__.
  by destruct (Symbol.Symbol_ _ _).
Qed.

End SymbolOperators.

(** ** Concrete runs on the reference runtime *)

(** C5, as stated, fails: [bool(Symbol(''))] is false. *)
Lemma bool_of_empty_string_is_false : ~ bool_coercion_as_stated (sym_of (PStr "")).
Proof. intros H. specialize (H 0%nat ∅). discriminate H. Qed.

Example bool_of_zero : Symbol.__bool__ 0 ∅ (sym_of (PInt 0)) = Some false.
Proof. reflexivity. Qed.

Example bool_of_empty_list :
  Symbol.__bool__ 0 {[ 7%nat := OList [] ]} (sym_of (PRef 7%nat)) = Some false.
Proof. vm_compute. reflexivity. Qed.

(** C3, as stated, fails: for a [Symbol] with static context "be brief"
    and no dynamic context, [global_context] is a tuple, not a string. *)
Lemma global_context_not_a_string :
  ~ global_context_as_stated (Symbol.blank Symbol_cls (Some "be brief")) ∅.
Proof. intros H. vm_compute in H. discriminate H. Qed.

Example global_context_run :
  fst (Symbol.global_context (Symbol.blank Symbol_cls (Some "be brief"))
         {[ Symbol_cls := ["one"; "two"] ]}) =
  PTuple [PStr (nl +:+ "[STATIC CONTEXT]" +:+ nl +:+ "be brief");
          PStr (nl +:+ "[DYNAMIC CONTEXT]" +:+ nl +:+ "one" +:+ nl +:+ "two")].
Proof. vm_compute. reflexivity. Qed.

Lemma getattr_cascade_witness :
  Symbol.__getattr__ h_inner (sym_of (PRef 0%nat)) "value" = inl (PRef 0%nat) /\
  Symbol.__getattr__ h_inner (sym_of (PRef 0%nat)) "marker" = inl (PStr "[--++=|=++--]") /\
  Symbol.__getattr__ ∅ (sym_of (PInt 5)) "foo" =
    inr (Exception "AttributeError"
           "Cascading call failed, since object has no attribute 'foo'. Original error message: 'int' object has no attribute 'foo'"
           (Some (Exception "AttributeError" "'int' object has no attribute 'foo'" None))).
Proof.
  split; [|split].
  - apply (proj1 (getattr_cascade h_inner (sym_of (PRef 0%nat)) "value")).
    vm_compute. reflexivity.
  - apply (proj1 (proj2 (getattr_cascade h_inner (sym_of (PRef 0%nat)) "marker"))).
    + vm_compute. reflexivity.
    + vm_compute. reflexivity.
  - apply (proj2 (proj2 (getattr_cascade ∅ (sym_of (PInt 5)) "foo"))
             "'int' object has no attribute 'foo'" None).
    + vm_compute. reflexivity.
    + vm_compute. reflexivity.
Defined.

Lemma matmul_concatenates_witness :
  is_symbol (objects w_two) (PRef 0%nat) = Some (sym_of (PStr "ab")) /\
  is_symbol (objects w_two) (PRef 1%nat) = Some (sym_of (PStr "cd")) /\
  (exists r w' c,
     Symbol.matmul_op (PRef 0%nat) (PRef 1%nat) w_two = Some (r, w') /\
     objects w_two !! r = None /\
     objects w' !! r = Some (OSymbol c) /\
     value c = PStr "abcd" /\
     (forall l, l <> r -> objects w' !! l = objects w_two !! l) /\
     dispatched w' = dispatched w_two) /\
  (exists r w' c,
     Symbol.__rmatmul__ (PRef 0%nat) (PRef 1%nat) w_two = (r, w') /\
     objects w_two !! r = None /\
     objects w' !! r = Some (OSymbol c) /\
     value c = PStr "cdab" /\
     (forall l, l <> r -> objects w' !! l = objects w_two !! l) /\
     dispatched w' = dispatched w_two).
Proof.
  assert (Ha : is_symbol (objects w_two) (PRef 0%nat) = Some (sym_of (PStr "ab")))
    by (vm_compute; reflexivity).
  assert (Hb : is_symbol (objects w_two) (PRef 1%nat) = Some (sym_of (PStr "cd")))
    by (vm_compute; reflexivity).
  split; [exact Ha|]. split; [exact Hb|].
  exact (matmul_concatenates w_two (PRef 0%nat) (PRef 1%nat) _ _ Ha Hb).
Defined.

(** * Properties of the string methods *)

Example split_spaces : split " " "a  b" = ["a"; ""; "b"].
Proof. reflexivity. Qed.

Example split_empty : split " " "" = [""].
Proof. reflexivity. Qed.

Example split_marker :
  split "[--++=|=++--]" "a[--++=|=++--]b c[--++=|=++--]" = ["a"; "b c"; ""].
Proof. vm_compute. reflexivity. Qed.

Example split_overlap : split "aa" "aaa" = [""; "a"].
Proof. vm_compute. reflexivity. Qed.

Example strip_both_ends :
  strip (" " +:+ nl +:+ "a b " +:+ nl) = "a b".
Proof. vm_compute. reflexivity. Qed.

Example words_run : words ("  one" +:+ nl +:+ "two  three ") = ["one"; "two"; "three"].
Proof. vm_compute. reflexivity. Qed.

Example slice_last_two : slice_from (-2) [1; 2; 3] = [2; 3].
Proof. reflexivity. Qed.

Example slice_minus_zero : slice_from (-0) [1; 2; 3] = [1; 2; 3].
Proof. reflexivity. Qed.

Example slice_past_the_front : slice_from (-5) [1; 2; 3] = [1; 2; 3].
Proof. reflexivity. Qed.

Lemma string_length_app (a b : string) :
  String.length (a +:+ b) = (String.length a + String.length b)%nat.
Proof. induction a as [|c a IH]; simpl; [done|]. by rewrite IH. Qed.

Lemma split_from_nonempty (sep : string) (skip : nat) (s : string) :
  split_from sep skip s <> [].
Proof.
  revert skip. induction s as [|c r IH]; intros skip; cbn [split_from]; [done|].
  destruct skip; [|apply IH].
  destruct (String.prefix sep (String c r)); [done|].
  by destruct (split_from sep 0 r).
Qed.

Lemma join_cons_cons (sep x y : string) (l : list string) :
  join sep (x :: y :: l) = x +:+ sep +:+ join sep (y :: l).
Proof. reflexivity. Qed.

(** Splitting at spaces and joining with spaces gives the string back. *)
Lemma join_split_space (s : string) : join " " (split " " s) = s.
Proof.
  unfold split. induction s as [|c r IH]; [done|].
  cbn [split_from String.prefix]. destruct (ascii_dec " " c) as [<-|Hc].
  - replace (String.prefix "" r) with true by (by destruct r).
    simpl (String.length " " - 1)%nat.
    pose proof (split_from_nonempty " " 0 r) as Hne.
    destruct (split_from " " 0 r) as [|w ws] eqn:E; [done|].
    rewrite join_cons_cons, IH. reflexivity.
  - pose proof (split_from_nonempty " " 0 r) as Hne.
    destruct (split_from " " 0 r) as [|w ws] eqn:E; [done|].
    rewrite <- IH. by destruct ws.
Qed.

Lemma lstrip_length (s : string) : (String.length (lstrip s) <= String.length s)%nat.
Proof.
  induction s as [|c r IH]; simpl; [done|].
  destruct (is_space c); simpl; lia.
Qed.

Lemma rstrip_length (s : string) : (String.length (rstrip s) <= String.length s)%nat.
Proof.
  induction s as [|c r IH]; simpl; [done|].
  destruct (is_space c && is_empty (rstrip r)); simpl; lia.
Qed.

Lemma strip_length (s : string) : (String.length (strip s) <= String.length s)%nat.
Proof.
  unfold strip. pose proof (lstrip_length (rstrip s)). pose proof (rstrip_length s). lia.
Qed.

(** What is left of a non-empty string once its first space-delimited part
    is dropped is strictly shorter. *)
Lemma drop_first_part_length (s : string) :
  s <> "" -> (String.length (join " " (tl (split " " s))) < String.length s)%nat.
Proof.
  intros Hs. pose proof (join_split_space s) as Hj.
  destruct (split " " s) as [|p0 [|p1 rest]]; simpl tl.
  - by destruct s.
  - destruct s; [done|simpl; lia].
  - rewrite join_cons_cons in Hj. rewrite <- Hj.
    rewrite !string_length_app. simpl. lia.
Qed.

Lemma words_lstrip (s : string) : words (lstrip s) = words s.
Proof.
  induction s as [|c r IH]; [done|].
  simpl lstrip. destruct (is_space c) eqn:Hc; [|done].
  rewrite IH. simpl. by rewrite Hc.
Qed.

Lemma words_all_space (r : string) : rstrip r = "" -> words r = [].
Proof.
  induction r as [|c r IH]; [done|]. simpl.
  destruct (is_space c) eqn:Hc; simpl; [|done].
  destruct (rstrip r) eqn:Hr; simpl; [auto|done].
Qed.

Lemma words_head_space (c : ascii) (r : string) :
  is_space c = true -> words (String c r) = words r.
Proof. intros Hc. simpl. by rewrite Hc. Qed.

Lemma words_two (c c1 : ascii) (r : string) :
  words (String c (String c1 r)) =
    if is_space c then words (String c1 r)
    else if is_space c1 then String c "" :: words (String c1 r)
    else match words (String c1 r) with
         | w :: ws => String c w :: ws
         | [] => [String c ""]
         end.
Proof. reflexivity. Qed.

Lemma words_rstrip (s : string) : words (rstrip s) = words s.
Proof.
  induction s as [|c r IH]; [done|].
  simpl rstrip. destruct (is_space c) eqn:Hc.
  - destruct (rstrip r) as [|c' r'] eqn:Hr; simpl andb; cbv iota.
    + rewrite words_head_space by done. symmetry. by apply words_all_space.
    + rewrite (words_head_space c (String c' r')), (words_head_space c r) by done.
      exact IH.
  - simpl andb. cbv iota.
    destruct r as [|c1 r1].
    + simpl. by rewrite Hc.
    + destruct (rstrip (String c1 r1)) as [|c' r'] eqn:Hr.
      * pose proof (words_all_space _ Hr) as Hw.
        rewrite words_two, Hc, Hw. simpl. rewrite Hc. by destruct (is_space c1).
      * rewrite (words_two c c1 r1), (words_two c c' r'), Hc, IH.
        assert (Hcc : is_space c' = is_space c1).
        { simpl in Hr. destruct (is_space c1 && is_empty (rstrip r1)); [done|].
          by injection Hr as -> _. }
        by rewrite Hcc.
Qed.

Lemma words_strip (s : string) : words (strip s) = words s.
Proof. unfold strip. by rewrite words_lstrip, words_rstrip. Qed.

Lemma words_nonspace_nonempty (c : ascii) (r : string) :
  is_space c = false -> words (String c r) <> [].
Proof.
  intros Hc. simpl. rewrite Hc. destruct r as [|c' r']; [done|].
  destruct (is_space c'); [done|]. by destruct (words (String c' r')).
Qed.

(** A whitespace character between two strings separates their units. *)
Lemma words_app_space (a : string) (sp : ascii) (b : string) :
  is_space sp = true ->
  words (a +:+ String sp b) = (words a ++ words b)%list.
Proof.
  intros Hsp. induction a as [|c a IH].
  - simpl. by rewrite Hsp.
  - destruct (is_space c) eqn:Hc.
    + change (String c a +:+ String sp b) with (String c (a +:+ String sp b)).
      rewrite !words_head_space by done. exact IH.
    + destruct a as [|c1 a1].
      * simpl. rewrite Hc, Hsp. reflexivity.
      * change (String c (String c1 a1) +:+ String sp b)
          with (String c (String c1 (a1 +:+ String sp b))).
        change (String c1 a1 +:+ String sp b)
          with (String c1 (a1 +:+ String sp b)) in IH.
        rewrite (words_two c c1 (a1 +:+ String sp b)), (words_two c c1 a1), Hc, IH. destruct (is_space c1) eqn:Hc1; [done|].
        pose proof (words_nonspace_nonempty c1 a1 Hc1) as Hne.
        by destruct (words (String c1 a1)).
Qed.

(** * Properties of the token-budgeted memory *)

Section StringMemoryFacts.
Import SlidingWindowStringConcatMemory.
Context {BE : Backend}.

Lemma evict_empty : evict "" = "".
Proof. reflexivity. Qed.

(** A pass of the loop strictly shortens a non-empty buffer. *)
Lemma evict_length (m : string) :
  m <> "" -> (String.length (evict m) < String.length m)%nat.
Proof.
  intros Hm. unfold evict. pose proof (strip_length m) as Hs.
  destruct (strip m) as [|c r] eqn:E.
  - simpl. destruct m; [done|simpl; lia].
  - pose proof (drop_first_part_length (String c r)) as Hd.
    assert (String c r <> "") as Hne by done. specialize (Hd Hne). lia.
Qed.

(** A pass drops whole whitespace-delimited units from the front. *)
Lemma words_evict (m : string) :
  exists dropped, words m = (dropped ++ words (evict m))%list.
Proof.
  unfold evict. rewrite <- (words_strip m).
  pose proof (join_split_space (strip m)) as Hj.
  destruct (split " " (strip m)) as [|p0 [|p1 rest]]; simpl tl.
  - exists (words (strip m)). by rewrite app_nil_r.
  - exists (words (strip m)). by rewrite app_nil_r.
  - exists (words p0). rewrite <- Hj at 1. rewrite join_cons_cons.
    change (" " +:+ join " " (p1 :: rest)) with (String " " (join " " (p1 :: rest))).
    by apply words_app_space.
Qed.

Lemma words_iter_evict (k : nat) (m : string) :
  exists dropped, words m = (dropped ++ words (Nat.iter k evict m))%list.
Proof.
  induction k as [|k [d Hd]]; [by exists []|].
  destruct (words_evict (Nat.iter k evict m)) as [d' Hd'].
  exists (d ++ d')%list. simpl. by rewrite <- app_assoc, <- Hd', <- Hd.
Qed.

Lemma iter_evict_length (k : nat) (m : string) :
  (String.length (Nat.iter k evict m) <= String.length m - k)%nat.
Proof.
  induction k as [|k IH]; simpl; [lia|].
  destruct (Nat.iter k evict m) as [|c r] eqn:E.
  - simpl. lia.
  - pose proof (evict_length (String c r)) as Hl.
    assert (String c r <> "") as Hne by done. specialize (Hl Hne). lia.
Qed.

Lemma iter_evict_exhausted (k : nat) (m : string) :
  (String.length m <= k)%nat -> Nat.iter k evict m = "".
Proof.
  intros Hk. pose proof (iter_evict_length k m) as Hl.
  destruct (Nat.iter k evict m); [done|simpl in Hl; lia].
Qed.

Lemma int_le_float_gt (z : Z) (x : float) :
  int_le_float z x = true -> int_gt_float z x = false.
Proof.
  unfold int_le_float, int_gt_float.
  by destruct (int_compare_float z x) as [[| |]|].
Qed.

Lemma int_gt_float_le (z : Z) (x : float) :
  int_gt_float z x = false -> x <> S754_nan -> int_le_float z x = true.
Proof.
  unfold int_le_float, int_gt_float. intros Hgt Hnan.
  destruct x; [| |done|]; simpl in *;
    repeat match goal with
           | |- context [if ?c then _ else _] => destruct c
           | H : context [if ?c then _ else _] |- _ => destruct c
           | |- context [(?a ?= ?b)] => destruct (a ?= b)
           | H : context [(?a ?= ?b)] |- _ => destruct (a ?= b)
           end; done.
Qed.

(** The loop condition has a value exactly when the product has one. *)
Lemma over_budget_inl (self : t) (m : string) (c : bool) :
  over_budget self m = inl c <->
  exists b, budget self = inl b /\ int_gt_float (Z.of_nat (len m)) b = c.
Proof.
  unfold over_budget. destruct (budget self) as [b|e]; split.
  - intros [= <-]. by exists b.
  - intros (b' & [= <-] & <-). done.
  - done.
  - by intros (b' & Hb & _).
Qed.

Lemma over_budget_defined (self : t) (m m' : string) (c : bool) :
  over_budget self m = inl c -> exists c', over_budget self m' = inl c'.
Proof.
  unfold over_budget. destruct (budget self); [|done]. intros _. by eexists.
Qed.

(** The loop returns after [k] passes exactly when the condition holds on
    the first [k] buffers and fails on the next. *)
Lemma evict_loop_trace (self : t) (n : nat) (m r : string) :
  evict_loop self n m = Some (Returned r) ->
  exists k, (k <= n)%nat /\ r = Nat.iter k evict m /\
    over_budget self r = inl false /\
    forall j, (j < k)%nat -> over_budget self (Nat.iter j evict m) = inl true.
Proof.
  revert m. induction n as [|n IH]; intros m; simpl.
  - destruct (over_budget self m) as [[|]|e] eqn:Ho; [done| |done]. intros [= <-].
    exists 0%nat. split; [lia|]. split; [done|]. split; [done|]. intros j Hj. lia.
  - destruct (over_budget self m) as [[|]|e] eqn:Ho; [| |done].
    + intros Hr. destruct (IH _ Hr) as (k & Hk & -> & Hb & Hall).
      exists (S k). split; [lia|]. rewrite Nat.iter_succ_r.
      split; [done|]. split; [done|]. intros [|j] Hj; [done|].
      rewrite Nat.iter_succ_r. apply Hall. lia.
    + intros [= <-]. exists 0%nat. split; [lia|]. split; [done|]. split; [done|].
      intros j Hj. lia.
Qed.

(** The loop raises only at its first test, and leaves the buffer as it
    found it. *)
Lemma evict_loop_raises (self : t) (n : nat) (m r : string) (e : exn) :
  evict_loop self n m = Some (Raised r e) <-> r = m /\ budget self = inr e.
Proof.
  split.
  - revert m. induction n as [|n IH]; intros m; simpl;
      destruct (over_budget self m) as [[|]|e'] eqn:Ho; try done.
    + intros [= <- <-]. split; [done|].
      unfold over_budget in Ho. by destruct (budget self) as [b|e0]; [|injection Ho as ->].
    + intros Hr. destruct (IH _ Hr) as [_ Hb].
      unfold over_budget in Ho. by rewrite Hb in Ho.
    + intros [= <- <-]. split; [done|].
      unfold over_budget in Ho. by destruct (budget self) as [b|e0]; [|injection Ho as ->].
  - intros [-> Hb].
    assert (Ho : over_budget self m = inr e) by (unfold over_budget; by rewrite Hb).
    destruct n; simpl; by rewrite Ho.
Qed.

Lemma evict_loop_empty_diverges (self : t) :
  over_budget self "" = inl true -> forall n, evict_loop self n "" = None.
Proof.
  intros Ho n. induction n as [|n IH]; simpl; rewrite Ho; [done|].
  by rewrite evict_empty.
Qed.

(** When as many passes as the buffer has characters, and one more, do not
    make the loop return, no number of passes does. *)
Lemma evict_loop_diverges (self : t) (n k : nat) (m : string) :
  (String.length m < k)%nat ->
  evict_loop self k m = None -> evict_loop self n m = None.
Proof.
  revert k m. induction n as [|n IH]; intros k m Hk Hnone.
  - destruct k as [|k]; [lia|]. simpl in Hnone |- *.
    by destruct (over_budget self m) as [[|]|e].
  - destruct k as [|k]; [lia|]. simpl in Hnone |- *.
    destruct (over_budget self m) as [[|]|e] eqn:Ho; [|done|done].
    destruct m as [|c r].
    + by apply evict_loop_empty_diverges.
    + eapply (IH k); [|exact Hnone].
      pose proof (evict_length (String c r)) as Hl.
      assert (String c r <> "") as Hne by done. specialize (Hl Hne). lia.
Qed.

Lemma evict_loop_returns (self : t) (k : nat) (m : string) :
  over_budget self "" = inl false -> (String.length m < k)%nat ->
  exists r, evict_loop self k m = Some (Returned r).
Proof.
  intros He. revert m. induction k as [|k IH]; intros m Hk; [lia|].
  simpl. destruct (over_budget self m) as [[|]|e] eqn:Ho; [|by eexists|].
  - destruct m as [|c r]; [congruence|].
    destruct k as [|k].
    + simpl in Hk. lia.
    + apply IH. pose proof (evict_length (String c r)) as Hl.
      assert (String c r <> "") as Hne by done. specialize (Hl Hne). lia.
  - destruct (over_budget_defined self "" m false He) as [c Hc]. congruence.
Qed.

End StringMemoryFacts.

Section StringMemoryTheorems.
Import SlidingWindowStringConcatMemory.
Context {BE : Backend}.

(** [len(Symbol(text))] is the number of tokens of [text]. *)
Lemma len_of_text_Symbol {RT : PyRuntime} (text : string) (h : heap) :
  exists s, snd (Symbol.Symbol_ [PStr text] h) !! fst (Symbol.Symbol_ [PStr text] h)
              = Some (OSymbol s) /\
    value s = PStr text /\
    Symbol.__len__ (snd (Symbol.Symbol_ [PStr text] h)) s = len text.
Proof.
  rewrite Symbol_of_str. simpl. eexists. split; [by rewrite lookup_insert_eq|].
  split; [reflexivity|]. unfold Symbol.__len__, Symbol.tokens, Symbol.__str__, len.
  simpl. by rewrite py_str_of_str.
Qed.

Lemma budget_fields (self self' : t) :
  token_ratio self = token_ratio self' -> budget self = budget self'.
Proof. unfold budget. by intros ->. Qed.

(** A call of [store] that returns has made some number [k] of passes, at
    most as many as the appended text has characters: the loop condition
    held on the first [k] buffers and fails on the one that is kept. *)
Lemma store_trace (self : t) (query_ : string) (self' : t) :
  store self query_ = Some (Returned self') ->
  marker self' = marker self /\
  token_ratio self' = token_ratio self /\
  exists k, (k <= String.length (appended self query_))%nat /\
    _memory self' = Nat.iter k evict (appended self query_) /\
    over_budget self (Nat.iter k evict (appended self query_)) = inl false /\
    forall j, (j < k)%nat ->
      over_budget self (Nat.iter j evict (appended self query_)) = inl true.
Proof.
  unfold store. intros Hs.
  destruct (evict_loop self (S (String.length (appended self query_)))
              (appended self query_)) as [[r|r e]|] eqn:Hloop; [|done|done].
  injection Hs as <-. simpl.
  destruct (evict_loop_trace _ _ _ _ Hloop) as (k & Hk & -> & Hb & Hall).
  split; [done|]. split; [done|]. exists k. split; [|done].
  destruct (decide (k = S (String.length (appended self query_)))) as [->|]; [|lia].
  specialize (Hall (String.length (appended self query_)) (Nat.lt_succ_diag_r _)).
  rewrite !iter_evict_exhausted in * by lia. congruence.
Qed.

(** When the empty buffer is within budget, [store] returns. *)
Lemma store_returns (self : t) (query_ : string) :
  over_budget self "" = inl false ->
  exists self', store self query_ = Some (Returned self').
Proof.
  intros He.
  destruct (evict_loop_returns self (S (String.length (appended self query_)))
              (appended self query_) He) as [r Hr]; [lia|].
  eexists. unfold store. by rewrite Hr.
Qed.

(** When the product cannot be computed, [store] raises at the first test
    of its loop, with the text and the marker already appended. *)
Lemma store_raises (self : t) (query_ : string) (e : exn) :
  budget self = inr e ->
  store self query_ =
    Some (Raised {| _memory := appended self query_; marker := marker self;
                    token_ratio := token_ratio self |} e).
Proof.
  intros Hb. unfold store.
  by rewrite (proj2 (evict_loop_raises self _ (appended self query_) _ e) (conj eq_refl Hb)).
Qed.

(** C2: a call of [store] that returns leaves a buffer whose token count
    does not exceed [max_tokens() * token_ratio]: the test [tokens >
    product] fails on it, so the count is at most the product whenever the
    product is a number.  The buffer is what some number of eviction
    passes leaves of the old buffer with the new text and the marker
    appended, and its whitespace-delimited units are the units of that
    text with some units dropped from the front, none of them cut.  The
    call does return whenever the tokenizer gives the empty string no
    token and the product is not below zero. *)
Theorem store_keeps_budget (self : t) (query_ : string) :
  (forall self', store self query_ = Some (Returned self') ->
     (exists b, budget self' = inl b /\
        int_gt_float (Z.of_nat (len (_memory self'))) b = false /\
        (b <> S754_nan -> int_le_float (Z.of_nat (len (_memory self'))) b = true)) /\
     marker self' = marker self /\
     token_ratio self' = token_ratio self /\
     (exists k, (k <= String.length (appended self query_))%nat /\
        _memory self' = Nat.iter k evict (appended self query_) /\
        forall j, (j < k)%nat ->
          over_budget self (Nat.iter j evict (appended self query_)) = inl true) /\
     (exists dropped,
        words (appended self query_) = (dropped ++ words (_memory self'))%list)) /\
  (forall b, tokenizer_encode "" = [] -> budget self = inl b ->
     int_gt_float 0 b = false ->
     exists self', store self query_ = Some (Returned self')).
Proof.
  split.
  - intros self' Hs.
    destruct (store_trace _ _ _ Hs) as (Hmk & Hr & k & Hk & Hm & Hb & Hall).
    split.
    + apply over_budget_inl in Hb as (b & Hbudget & Hgt).
      exists b. rewrite (budget_fields self' self Hr), Hm.
      split; [done|]. split; [done|]. intros Hnan. by apply int_gt_float_le.
    + split; [done|]. split; [done|]. split.
      * by exists k.
      * rewrite Hm. apply words_iter_evict.
  - intros b Htok Hbudget Hzero. apply store_returns.
    apply over_budget_inl. exists b. split; [done|].
    unfold len. by rewrite Htok.
Qed.

(** C8, as the code has it: when the tokenizer gives the empty string no
    token and [max_tokens() * token_ratio] is not negative, [store]
    returns.  Every pass of its loop strictly shortens a non-empty buffer,
    counted in characters, and leaves the empty buffer empty, so the loop
    exits after at most as many passes as the buffer has characters. *)
Theorem store_terminates (self : t) (query_ : string) (b : float) :
  tokenizer_encode "" = [] ->
  budget self = inl b -> int_le_float 0 b = true ->
  (forall m, m <> "" -> (String.length (evict m) < String.length m)%nat) /\
  evict "" = "" /\
  exists self' k,
    store self query_ = Some (Returned self') /\
    (k <= String.length (appended self query_))%nat /\
    _memory self' = Nat.iter k evict (appended self query_) /\
    over_budget self (Nat.iter k evict (appended self query_)) = inl false /\
    forall j, (j < k)%nat ->
      over_budget self (Nat.iter j evict (appended self query_)) = inl true.
Proof.
  intros Htok Hbudget Hzero.
  split; [exact evict_length|]. split; [reflexivity|].
  assert (He : over_budget self "" = inl false).
  { apply over_budget_inl. exists b. split; [done|].
    unfold len. rewrite Htok. by apply int_le_float_gt. }
  destruct (store_returns self query_ He) as [self' Hs].
  destruct (store_trace _ _ _ Hs) as (_ & _ & k & Hk & Hm & Hb & Hall).
  exists self', k. split; [exact Hs|]. split; [exact Hk|]. split; [exact Hm|].
  split; [exact Hb|exact Hall].
Qed.

(** A call of [store] that does not return is a loop that no number of
    passes brings to an end. *)
Lemma store_None_diverges (self : t) (query_ : string) :
  store self query_ = None ->
  forall n, evict_loop self n (appended self query_) = None.
Proof.
  unfold store. intros Hs n.
  destruct (evict_loop self (S (String.length (appended self query_)))
              (appended self query_)) as [[r|r e]|] eqn:Hloop; [done|done|].
  eapply evict_loop_diverges; [|exact Hloop]. lia.
Qed.

(** [recall] sends exactly one request, and its subject is the buffer as
    it stands, markers included. *)
Lemma recall_request {RT : PyRuntime} (self : t) (query_ : string) (w : world) :
  dispatched (snd (recall self query_ w)) =
    (dispatched w ++
       [{| operation := "query"; subject := _memory self; operands := [query_] |}])%list.
Proof.
  unfold recall, query. rewrite Symbol_of_str. simpl.
  unfold Symbol.str, is_symbol. rewrite lookup_insert_eq.
  unfold Symbol.__str__. simpl. by rewrite py_str_of_str.
Qed.

End StringMemoryTheorems.

(** ** Concrete runs of the token-budgeted memory *)

Example store_six_units :
  SlidingWindowStringConcatMemory.store (BE := echo_engine word_tokenizer 10)
    mem_half "one two three four five six" = Some (Returned mem_half_stored).
Proof. vm_compute. reflexivity. Qed.

(** The product is the rounded one: [100 * 0.29] is the double just below
    29, so a buffer of 29 tokens is over budget; [5 * 0.6] is 3.0 although
    the double that [0.6] denotes is below six tenths, so a buffer of 3
    tokens is within budget. *)
Example budget_is_rounded :
  int_mul_float 100 (float_lit 29 100) = inl (S754_finite false 8162774324609023 (-48)) /\
  int_gt_float 29 (S754_finite false 8162774324609023 (-48)) = true /\
  int_mul_float 5 (float_lit 6 10) = float_of_int 3 /\
  int_mul_float 5 (float_lit 6 10) = inl (S754_finite false 6755399441055744 (-51)) /\
  int_gt_float 3 (S754_finite false 6755399441055744 (-51)) = false.
Proof. vm_compute. done. Qed.

(** An [int] beyond the doubles makes the product, and with it [store],
    raise [OverflowError]. *)
Example budget_overflows :
  int_mul_float (2 ^ 1024) (float_lit 6 10) =
    inr (Exception "OverflowError" "int too large to convert to float" None) /\
  float_of_int (2 ^ 1024 - 2 ^ 970 - 1) = inl (S754_finite false 9007199254740991 971).
Proof. vm_compute. done. Qed.

Lemma store_keeps_budget_witness :
  tokenizer_encode (Backend := echo_engine word_tokenizer 10) "" = [] /\
  SlidingWindowStringConcatMemory.budget (BE := echo_engine word_tokenizer 10) mem_half
    = float_of_int 5 /\
  exists self',
    SlidingWindowStringConcatMemory.store (BE := echo_engine word_tokenizer 10)
      mem_half "one two three four five six" = Some (Returned self') /\
    int_le_float
      (Z.of_nat (SlidingWindowStringConcatMemory.len (BE := echo_engine word_tokenizer 10)
                   (SlidingWindowStringConcatMemory._memory self')))
      (S754_finite false 5629499534213120 (-50)) = true /\
    exists dropped,
      words "one two three four five six[--++=|=++--]" =
        (dropped ++ words (SlidingWindowStringConcatMemory._memory self'))%list.
Proof.
  assert (Ht : tokenizer_encode (Backend := echo_engine word_tokenizer 10) "" = [])
    by reflexivity.
  assert (Hb : SlidingWindowStringConcatMemory.budget
                 (BE := echo_engine word_tokenizer 10) mem_half
               = inl (S754_finite false 5629499534213120 (-50)))
    by (vm_compute; reflexivity).
  split; [exact Ht|]. split; [rewrite Hb; vm_compute; reflexivity|].
  destruct (store_keeps_budget (BE := echo_engine word_tokenizer 10)
              mem_half "one two three four five six") as [Hpart Htot].
  destruct (Htot _ Ht Hb eq_refl) as [self' Hs].
  exists self'. split; [exact Hs|].
  destruct (Hpart self' Hs) as ((b & Hb' & _ & Hle) & _ & Hr & _ & Hw).
  split; [|exact Hw].
  rewrite (budget_fields (BE := echo_engine word_tokenizer 10) self' mem_half Hr), Hb in Hb'.
  injection Hb' as <-. apply Hle. discriminate.
Defined.

Lemma store_terminates_witness :
  tokenizer_encode (Backend := echo_engine word_tokenizer 10) "" = [] /\
  SlidingWindowStringConcatMemory.budget (BE := echo_engine word_tokenizer 10) mem_half
    = float_of_int 5 /\
  int_le_float 0 (S754_finite false 5629499534213120 (-50)) = true /\
  exists self', SlidingWindowStringConcatMemory.store (BE := echo_engine word_tokenizer 10)
                  mem_half "one two three four five six" = Some (Returned self').
Proof.
  assert (Ht : tokenizer_encode (Backend := echo_engine word_tokenizer 10) "" = [])
    by reflexivity.
  assert (Hb : SlidingWindowStringConcatMemory.budget
                 (BE := echo_engine word_tokenizer 10) mem_half
               = inl (S754_finite false 5629499534213120 (-50)))
    by (vm_compute; reflexivity).
  assert (Hz : int_le_float 0 (S754_finite false 5629499534213120 (-50)) = true)
    by (vm_compute; reflexivity).
  split; [exact Ht|]. split; [rewrite Hb; vm_compute; reflexivity|]. split; [exact Hz|].
  destruct (store_terminates (BE := echo_engine word_tokenizer 10)
              mem_half "one two three four five six" _ Ht Hb Hz)
    as (_ & _ & self' & k & Hs & _).
  exists self'. exact Hs.
Defined.

(** C8, as stated, fails on its reason: with a tokenizer that holds " bc"
    as one token, [max_tokens() = 20] and the default ratio 0.6, storing
    "a bc" into an empty memory makes the loop run on a buffer of 15
    tokens, and the first pass leaves a buffer of 15 tokens again. *)
Lemma eviction_pass_keeps_token_count :
  ~ each_pass_reduces_tokens (BE := echo_engine pair_tokenizer 20)
      (SlidingWindowStringConcatMemory.__init__
         SlidingWindowStringConcatMemory.default_token_ratio) "a bc".
Proof.
  intros H. specialize (H 0%nat).
  assert (Hpre : forall j, (j <= 0)%nat ->
            SlidingWindowStringConcatMemory.over_budget
              (BE := echo_engine pair_tokenizer 20)
              (SlidingWindowStringConcatMemory.__init__
         SlidingWindowStringConcatMemory.default_token_ratio)
              (Nat.iter j SlidingWindowStringConcatMemory.evict
                 (SlidingWindowStringConcatMemory.appended
                    (SlidingWindowStringConcatMemory.__init__
         SlidingWindowStringConcatMemory.default_token_ratio) "a bc")) = inl true).
  { intros j Hj. assert (j = 0%nat) as -> by lia. vm_compute. reflexivity. }
  specialize (H Hpre). vm_compute in H. lia.
Qed.

Example pair_tokenizer_run :
  List.length (pair_tokenizer "a bc[--++=|=++--]") = 15%nat /\
  SlidingWindowStringConcatMemory.evict "a bc[--++=|=++--]" = "bc[--++=|=++--]" /\
  List.length (pair_tokenizer "bc[--++=|=++--]") = 15%nat.
Proof. vm_compute. done. Qed.

(** C4 at a failing input: after [store('a')] and [store('b')] the history
    segments join to "ab", yet the request that [recall] sends has the raw
    buffer, markers included, as its subject. *)
Theorem recall_queries_raw_buffer :
  (exists m1,
     SlidingWindowStringConcatMemory.store (BE := echo_engine word_tokenizer 100)
       (SlidingWindowStringConcatMemory.__init__
         SlidingWindowStringConcatMemory.default_token_ratio) "a" = Some (Returned m1) /\
     SlidingWindowStringConcatMemory.store (BE := echo_engine word_tokenizer 100)
       m1 "b" = Some (Returned mem_ab)) /\
  SlidingWindowStringConcatMemory.history mem_ab = ["a"; "b"; ""] /\
  join "" (SlidingWindowStringConcatMemory.history mem_ab) = "ab" /\
  dispatched (snd (SlidingWindowStringConcatMemory.recall
                     (BE := echo_engine word_tokenizer 100) mem_ab "who?"
                     {| objects := ∅; dispatched := [] |})) =
    [{| operation := "query"; subject := "a[--++=|=++--]b[--++=|=++--]";
        operands := ["who?"] |}].
Proof.
  split; [eexists; split; vm_compute; reflexivity|].
  split; [vm_compute; reflexivity|]. split; [vm_compute; reflexivity|].
  rewrite recall_request. reflexivity.
Qed.

(** * Properties of the sliding-window list memory *)

Section ListMemoryFacts.
Import SlidingWindowListMemory.

Lemma slice_from_neg {A : Type} (k : Z) (l : list A) :
  0 < k -> slice_from (- k) l = last_n (Z.to_nat k) l.
Proof.
  intros Hk. unfold slice_from, last_n.
  destruct (- k <? 0) eqn:E; [|lia]. f_equal. lia.
Qed.

Lemma last_n_all {A : Type} (k : nat) (l : list A) :
  (List.length l <= k)%nat -> last_n k l = l.
Proof. intros H. unfold last_n. by replace (List.length l - k)%nat with 0%nat by lia. Qed.

Lemma last_n_length {A : Type} (k : nat) (l : list A) :
  List.length (last_n k l) = Nat.min k (List.length l).
Proof. unfold last_n. rewrite length_drop. lia. Qed.

Lemma last_n_snoc {A : Type} (k : nat) (l : list A) (q : A) :
  (0 < k)%nat -> last_n k (last_n k l ++ [q]) = last_n k (l ++ [q]).
Proof.
  intros Hk. destruct (decide (List.length l <= k)%nat) as [Hle|Hgt].
  - by rewrite (last_n_all k l).
  - unfold last_n at 1. rewrite length_app, last_n_length. simpl.
    replace (Nat.min k (List.length l) + 1 - k)%nat with 1%nat by lia.
    unfold last_n. rewrite length_app. simpl.
    rewrite !drop_app_le by (rewrite ?length_drop; lia).
    rewrite drop_drop. do 2 f_equal. lia.
Qed.

Lemma store_fields (self : t) (q : string) :
  _window_size (store self q) = _window_size self /\
  _max_size (store self q) = _max_size self.
Proof. unfold store. by destruct (_ >? _). Qed.

Lemma store_memory (self : t) (q : string) :
  0 < _max_size self ->
  _memory (store self q) = last_n (Z.to_nat (_max_size self)) (_memory self ++ [q]).
Proof.
  intros Hm. unfold store.
  destruct (Z.of_nat (List.length (_memory self ++ [q])) >? _max_size self) eqn:E; simpl.
  - by apply slice_from_neg.
  - symmetry. apply last_n_all. lia.
Qed.

Lemma store_all_snoc (self : t) (qs : list string) (q : string) :
  store_all self (qs ++ [q]) = store (store_all self qs) q.
Proof. unfold store_all. by rewrite fold_left_app. Qed.

Lemma store_all_fields (self : t) (qs : list string) :
  _window_size (store_all self qs) = _window_size self /\
  _max_size (store_all self qs) = _max_size self.
Proof.
  induction qs as [|q qs IH] using rev_ind; [done|].
  rewrite store_all_snoc. destruct (store_fields (store_all self qs) q) as [-> ->].
  exact IH.
Qed.

(** With a positive [max_size], a memory that starts empty holds the last
    [max_size] entries stored, in the order they came. *)
Lemma store_all_memory (window_size max_size : Z) (qs : list string) :
  0 < max_size ->
  _memory (store_all (__init__ window_size max_size) qs) =
    last_n (Z.to_nat max_size) qs.
Proof.
  intros Hm. induction qs as [|q qs IH] using rev_ind; [done|].
  rewrite store_all_snoc, store_memory.
  - destruct (store_all_fields (__init__ window_size max_size) qs) as [_ ->].
    simpl. rewrite IH. apply last_n_snoc. lia.
  - by destruct (store_all_fields (__init__ window_size max_size) qs) as [_ ->].
Qed.

(** C6 where it holds: with [max_size] and [window_size] positive, after
    more than [max_size] entries the memory holds exactly the last
    [max_size] of them and [recall] returns the last [window_size] of
    those. *)
Lemma sliding_window_keeps_last (window_size max_size : Z) (qs : list string) :
  0 < max_size -> 0 < window_size ->
  max_size < Z.of_nat (List.length qs) ->
  let m := store_all (__init__ window_size max_size) qs in
  _memory m = last_n (Z.to_nat max_size) qs /\
  Z.of_nat (List.length (_memory m)) = max_size /\
  recall m = last_n (Z.to_nat window_size) (last_n (Z.to_nat max_size) qs).
Proof.
  intros Hm Hw Hn m. subst m.
  pose proof (store_all_memory window_size max_size qs Hm) as Hmem.
  split; [exact Hmem|]. split.
  - rewrite Hmem, last_n_length. lia.
  - unfold recall.
    destruct (store_all_fields (__init__ window_size max_size) qs) as [-> _].
    simpl. rewrite Hmem. by apply slice_from_neg.
Qed.

End ListMemoryFacts.

(** C6 at a failing input: with [max_size = 0] the slice [l[-0:]] is the
    whole list, so nothing is ever dropped; one entry stored, one entry
    held, and three entries stored, three entries held. *)
Theorem list_memory_max_size_zero :
  let m1 := SlidingWindowListMemory.store_all
              (SlidingWindowListMemory.__init__ 10 0) ["a"] in
  let m3 := SlidingWindowListMemory.store_all
              (SlidingWindowListMemory.__init__ 10 0) ["a"; "b"; "c"] in
  SlidingWindowListMemory._memory m1 = ["a"] /\
  List.length (SlidingWindowListMemory._memory m1) = 1%nat /\
  SlidingWindowListMemory._memory m3 = ["a"; "b"; "c"] /\
  SlidingWindowListMemory.recall m3 = ["a"; "b"; "c"].
Proof. vm_compute. done. Qed.

(** The same slice in [recall]: with [window_size = 0] it returns all the
    retained entries instead of the last zero of them. *)
Example list_memory_window_size_zero :
  SlidingWindowListMemory.recall
    (SlidingWindowListMemory.store_all
       (SlidingWindowListMemory.__init__ 0 2) ["a"; "b"; "c"]) = ["b"; "c"].
Proof. vm_compute. reflexivity. Qed.

Example list_memory_default_run :
  SlidingWindowListMemory.recall
    (SlidingWindowListMemory.store_all
       (SlidingWindowListMemory.__init__ 2 3) ["a"; "b"; "c"; "d"; "e"]) = ["d"; "e"].
Proof. vm_compute. reflexivity. Qed.

(** * Properties of the document retriever *)

Section DocumentFacts.
Context {SV : Services}.

(** C7: building a retriever for an index name that is already there, with
    [overwrite=False], changes nothing: no call to the embedding engine,
    no file read, no text cut into chunks, no file written, the indices as
    they were.  The retriever is bound to that index with no text of its
    own, and a call to it is a plain query: the top-k entries of the
    existing index for the embedded query. *)
Theorem existing_index_is_not_rebuilt
    (st : store_state) (f : DocumentRetriever.file_source) (index_name : string)
    (top_k : nat) (entries : list (list Z * string)) :
  indices st !! index_name = Some entries ->
  exists r st',
    DocumentRetriever.__init__ (Some f) index_name top_k false st = inl (r, st') /\
    embed_calls st' = embed_calls st /\
    files_read st' = files_read st /\
    formatted st' = formatted st /\
    written st' = written st /\
    indices st' = indices st /\
    Indexer.index_name (DocumentRetriever.index r) = index_name /\
    Indexer.top_k (DocumentRetriever.index r) = top_k /\
    DocumentRetriever.text r = PNone /\
    forall q,
      fst (DocumentRetriever.forward r q st') = nearest entries (embed q) top_k /\
      indices (snd (DocumentRetriever.forward r q st')) = indices st /\
      embed_calls (snd (DocumentRetriever.forward r q st')) = S (embed_calls st).
Proof.
  intros Hix. unfold DocumentRetriever.__init__, Indexer.exists_. simpl.
  rewrite Hix. rewrite bool_decide_eq_true_2 by eauto. simpl.
  eexists _, _. split; [reflexivity|]. repeat (split; [reflexivity|]).
  intros q. unfold DocumentRetriever.forward, Indexer.retrieve. simpl.
  by rewrite Hix.
Qed.

(** By contrast a retriever built for a name that is not there embeds
    every chunk of the text. *)
Lemma new_index_is_built
    (st : store_state) (txt index_name : string) (top_k : nat) :
  indices st !! index_name = None ->
  save_text (DocumentRetriever.dump_path index_name) txt = None ->
  exists r st',
    DocumentRetriever.__init__ (Some (DocumentRetriever.Other txt)) index_name top_k false st
      = inl (r, st') /\
    embed_calls st' = (embed_calls st + List.length (paragraph_format txt))%nat /\
    DocumentRetriever.text r = PStr txt.
Proof.
  intros Hix Hsave. unfold DocumentRetriever.__init__, Indexer.exists_. simpl.
  rewrite Hix. rewrite bool_decide_eq_false_2 by (intros [? ?]; done). simpl.
  unfold DocumentRetriever.dump. rewrite Hsave.
  eexists _, _. split; [reflexivity|]. simpl.
  unfold Indexer.register. simpl. rewrite Hix. split; reflexivity.
Qed.

End DocumentFacts.

Lemma existing_index_is_not_rebuilt_witness :
  indices st_docs !! "docs" = Some [([3], "abc")] /\
  exists r st',
    DocumentRetriever.__init__ (SV := plain_services)
      (Some (DocumentRetriever.Path "notes.txt")) "docs" 5 false st_docs = inl (r, st') /\
    embed_calls st' = 1%nat /\
    files_read st' = [] /\
    fst (DocumentRetriever.forward (SV := plain_services) r "ab" st') = ["abc"].
Proof.
  assert (Hix : indices st_docs !! "docs" = Some [([3], "abc")])
    by (vm_compute; reflexivity).
  split; [exact Hix|].
  destruct (existing_index_is_not_rebuilt (SV := plain_services) st_docs
              (DocumentRetriever.Path "notes.txt") "docs" 5 _ Hix)
    as (r & st' & Hinit & He & Hf & _ & _ & _ & _ & _ & _ & Hq).
  exists r, st'. split; [exact Hinit|]. split; [exact He|]. split; [exact Hf|].
  exact (proj1 (Hq "ab")).
Defined.

(** * Further properties of the sliding-window list memory *)

Section ListMemoryMore.
Import SlidingWindowListMemory.
Local Open Scope list_scope.

Lemma last_n_last {A : Type} (k : nat) (l : list A) (q : A) :
  (0 < k)%nat -> exists older, last_n k (l ++ [q]) = older ++ [q] /\ older = last_n (k - 1) l.
Proof.
  intros Hk. exists (last_n (k - 1) l). split; [|done].
  unfold last_n. rewrite length_app. simpl.
  rewrite drop_app_le by lia. do 2 f_equal. lia.
Qed.

Lemma store_is_bounded_aux (self : t) (q : string) :
  0 < _max_size self -> exists older, _memory (store self q) = older ++ [q].
Proof.
  intros Hm. rewrite (store_memory self q Hm).
  destruct (last_n_last (Z.to_nat (_max_size self)) (_memory self) q) as (o & Ho & _);
    [lia|]. by exists o.
Qed.

(** X1: with a positive [max_size], whatever the memory held before, after
    [store(q)] it holds at most [max_size] entries and [q] is the last of
    them. *)
Theorem store_is_bounded (self : t) (q : string) :
  0 < _max_size self ->
  Z.of_nat (List.length (_memory (store self q))) <= _max_size self /\
  exists older, _memory (store self q) = older ++ [q].
Proof.
  intros Hm. rewrite (store_memory self q Hm). split.
  - rewrite last_n_length. lia.
  - rewrite <- (store_memory self q Hm). by apply store_is_bounded_aux.
Qed.

(** X3: [recall] after [store(q)], with positive sizes: at most
    [window_size] entries come back, they are the tail of what the memory
    holds, and [q] is the last of them. *)
Theorem recall_after_store (self : t) (q : string) :
  0 < _max_size self -> 0 < _window_size self ->
  Z.of_nat (List.length (recall (store self q))) <= _window_size self /\
  (exists older, recall (store self q) = older ++ [q]) /\
  exists before, _memory (store self q) = before ++ recall (store self q).
Proof.
  intros Hm Hw. unfold recall.
  destruct (store_fields self q) as [-> _].
  rewrite slice_from_neg by done.
  destruct (store_is_bounded_aux self q Hm) as [older Ho].
  split; [rewrite last_n_length; lia|]. split.
  - rewrite Ho.
    destruct (last_n_last (Z.to_nat (_window_size self)) older q) as (o & -> & _); [lia|].
    by exists o.
  - exists (take (List.length (_memory (store self q)) - Z.to_nat (_window_size self))
              (_memory (store self q))).
    unfold last_n. by rewrite take_drop.
Qed.

End ListMemoryMore.

Section ListMemoryWindow.
Import SlidingWindowListMemory.
Local Open Scope list_scope.

Lemma last_n_last_n {A : Type} (a b : nat) (l : list A) :
  last_n a (last_n b l) = last_n (Nat.min a b) l.
Proof.
  unfold last_n. rewrite length_drop, drop_drop. f_equal. lia.
Qed.

(** X2: with positive sizes, [recall] after any sequence of [store]s into
    a new memory gives the last [min(window_size, max_size)] of the entries
    stored, in the order they were stored. *)
Theorem recall_of_stored (window_size max_size : Z) (qs : list string) :
  0 < max_size -> 0 < window_size ->
  recall (store_all (__init__ window_size max_size) qs) =
    last_n (Z.to_nat (Z.min window_size max_size)) qs.
Proof.
  intros Hm Hw. unfold recall.
  destruct (store_all_fields (__init__ window_size max_size) qs) as [-> _].
  rewrite (store_all_memory window_size max_size qs Hm). simpl.
  rewrite slice_from_neg by done.
  rewrite last_n_last_n. f_equal. lia.
Qed.

End ListMemoryWindow.

Lemma store_is_bounded_witness :
  0 < SlidingWindowListMemory._max_size list_mem_ab /\
  Z.of_nat (List.length (SlidingWindowListMemory._memory
                           (SlidingWindowListMemory.store list_mem_ab "c"))) <= 2 /\
  exists older,
    SlidingWindowListMemory._memory (SlidingWindowListMemory.store list_mem_ab "c")
    = (older ++ ["c"])%list.
Proof.
  assert (H : 0 < SlidingWindowListMemory._max_size list_mem_ab) by (vm_compute; reflexivity).
  split; [exact H|]. exact (store_is_bounded list_mem_ab "c" H).
Defined.

Lemma recall_of_stored_witness :
  0 < 3 /\ 0 < 2 /\
  SlidingWindowListMemory.recall
    (SlidingWindowListMemory.store_all (SlidingWindowListMemory.__init__ 2 3)
       ["a"; "b"; "c"; "d"; "e"]) = ["d"; "e"].
Proof.
  split; [lia|]. split; [lia|].
  exact (recall_of_stored 2 3 ["a"; "b"; "c"; "d"; "e"] ltac:(lia) ltac:(lia)).
Defined.

Lemma recall_after_store_witness :
  0 < SlidingWindowListMemory._max_size list_mem_ab /\
  0 < SlidingWindowListMemory._window_size list_mem_ab /\
  Z.of_nat (List.length (SlidingWindowListMemory.recall
                           (SlidingWindowListMemory.store list_mem_ab "c"))) <= 2 /\
  (exists older,
     SlidingWindowListMemory.recall (SlidingWindowListMemory.store list_mem_ab "c")
     = (older ++ ["c"])%list) /\
  exists before,
    SlidingWindowListMemory._memory (SlidingWindowListMemory.store list_mem_ab "c")
    = (before ++ SlidingWindowListMemory.recall
                   (SlidingWindowListMemory.store list_mem_ab "c"))%list.
Proof.
  assert (Hm : 0 < SlidingWindowListMemory._max_size list_mem_ab) by (vm_compute; reflexivity).
  assert (Hw : 0 < SlidingWindowListMemory._window_size list_mem_ab)
    by (vm_compute; reflexivity).
  split; [exact Hm|]. split; [exact Hw|].
  exact (recall_after_store list_mem_ab "c" Hm Hw).
Defined.

Section ListMemoryForget.
Import SlidingWindowListMemory.
Local Open Scope list_scope.

Lemma list_remove_missing (x : string) (l : list string) :
  ~ In x l -> list_remove x l = None.
Proof.
  induction l as [|y r IH]; [done|]. intros Hn. simpl.
  destruct (String.eqb_spec y x) as [->|Hne].
  - exfalso. apply Hn. by left.
  - rewrite IH; [done|]. intros Hin. apply Hn. by right.
Qed.

Lemma list_remove_first (x : string) (l1 l2 : list string) :
  ~ In x l1 -> list_remove x (l1 ++ x :: l2) = Some (l1 ++ l2).
Proof.
  induction l1 as [|y r IH]; intros Hn; simpl.
  - by rewrite String.eqb_refl.
  - destruct (String.eqb_spec y x) as [->|Hne].
    + exfalso. apply Hn. by left.
    + rewrite IH; [done|]. intros Hin. apply Hn. by right.
Qed.

(** X4: [forget] of an entry the memory does not hold raises [ValueError],
    the error of [list.remove]. *)
Theorem forget_missing_raises (self : t) (q : string) :
  ~ In q (_memory self) ->
  forget self q = inr (Exception "ValueError" "list.remove(x): x not in list" None).
Proof. intros Hn. unfold forget. by rewrite list_remove_missing. Qed.

(** X5: [forget] of an entry the memory holds removes its oldest
    occurrence and nothing else: the entries before and after it stay, in
    order, and so do later copies of it. *)
Theorem forget_removes_oldest (self : t) (q : string) (l1 l2 : list string) :
  _memory self = l1 ++ q :: l2 -> ~ In q l1 ->
  forget self q =
    inl {| _memory := l1 ++ l2; _window_size := _window_size self;
           _max_size := _max_size self |}.
Proof. intros Hm Hn. unfold forget. by rewrite Hm, list_remove_first. Qed.

(** X6: storing an entry that the memory does not hold yet, with room
    left, and forgetting it again gives the memory back as it was. *)
Theorem forget_after_store (self : t) (q : string) :
  ~ In q (_memory self) ->
  Z.of_nat (List.length (_memory self)) < _max_size self ->
  forget (store self q) q = inl self.
Proof.
  intros Hn Hlen.
  assert (Hs : store self q =
               {| _memory := _memory self ++ [q]; _window_size := _window_size self;
                  _max_size := _max_size self |}).
  { unfold store. rewrite length_app. simpl.
    destruct (Z.gtb_spec (Z.of_nat (List.length (_memory self) + 1)) (_max_size self));
      [lia|done]. }
  rewrite Hs. unfold forget. simpl.
  rewrite (list_remove_first q (_memory self) []) by done.
  rewrite app_nil_r. by destruct self.
Qed.

End ListMemoryForget.

Lemma forget_missing_raises_witness :
  ~ In "z" (SlidingWindowListMemory._memory list_mem_ab) /\
  SlidingWindowListMemory.forget list_mem_ab "z"
  = inr (Exception "ValueError" "list.remove(x): x not in list" None).
Proof.
  assert (H : ~ In "z" (SlidingWindowListMemory._memory list_mem_ab))
    by (simpl; intros [H|[H|[]]]; discriminate).
  split; [exact H|]. exact (forget_missing_raises list_mem_ab "z" H).
Defined.

Lemma forget_removes_oldest_witness :
  SlidingWindowListMemory._memory list_mem_aba = ([] ++ "a" :: ["b"; "a"])%list /\
  ~ In "a" [] /\
  SlidingWindowListMemory.forget list_mem_aba "a"
  = inl {| SlidingWindowListMemory._memory := ["b"; "a"];
           SlidingWindowListMemory._window_size := 2;
           SlidingWindowListMemory._max_size := 5 |}.
Proof.
  split; [reflexivity|]. split; [simpl; tauto|].
  exact (forget_removes_oldest list_mem_aba "a" [] ["b"; "a"] eq_refl (fun H => H)).
Defined.

Lemma forget_after_store_witness :
  ~ In "c" (SlidingWindowListMemory._memory list_mem_aba) /\
  Z.of_nat (List.length (SlidingWindowListMemory._memory list_mem_aba))
  < SlidingWindowListMemory._max_size list_mem_aba /\
  SlidingWindowListMemory.forget (SlidingWindowListMemory.store list_mem_aba "c") "c"
  = inl list_mem_aba.
Proof.
  assert (Hn : ~ In "c" (SlidingWindowListMemory._memory list_mem_aba))
    by (simpl; intros [H|[H|[H|[]]]]; discriminate).
  assert (Hl : Z.of_nat (List.length (SlidingWindowListMemory._memory list_mem_aba))
               < SlidingWindowListMemory._max_size list_mem_aba)
    by (vm_compute; reflexivity).
  split; [exact Hn|]. split; [exact Hl|].
  exact (forget_after_store list_mem_aba "c" Hn Hl).
Defined.

(** * Further properties of the string methods *)

Section SplitFacts.
Local Open Scope nat_scope.

Lemma prefix_length (p s : string) :
  String.prefix p s = true -> String.length p <= String.length s.
Proof.
  revert s. induction p as [|a p IH]; intros s; [simpl; lia|].
  destruct s as [|b s]; [done|]. simpl. destruct (ascii_dec a b); [|done].
  intros H. apply IH in H. lia.
Qed.

Lemma prefix_drop (p s : string) :
  String.prefix p s = true -> s = p +:+ string_drop (String.length p) s.
Proof.
  revert s. induction p as [|a p IH]; intros s; [done|].
  destruct s as [|b s]; [done|]. simpl. destruct (ascii_dec a b) as [->|]; [|done].
  intros H. rewrite (IH s H) at 1. reflexivity.
Qed.

Lemma prefix_app (p rest : string) : String.prefix p (p +:+ rest) = true.
Proof.
  induction p as [|a p IH]; simpl; [by destruct rest|].
  by destruct (ascii_dec a a).
Qed.

Lemma join_cons_char (sep : string) (c : ascii) (w : string) (ws : list string) :
  join sep (String c w :: ws) = String c (join sep (w :: ws)).
Proof. by destruct ws. Qed.

Lemma string_drop_all (k : nat) (s : string) :
  String.length s <= k -> string_drop k s = "".
Proof.
  revert k. induction s as [|c r IH]; intros k Hk; [by destruct k|].
  destruct k as [|k]; simpl in *; [lia|]. apply IH. lia.
Qed.

Lemma join_split_from (sep : string) (s : string) (k : nat) :
  sep <> "" -> k <= String.length s ->
  join sep (split_from sep k s) = string_drop k s.
Proof.
  intros Hsep. revert k. induction s as [|c r IH]; intros k Hk.
  - simpl in Hk. by replace k with 0 by lia.
  - destruct k as [|k].
    + cbn [split_from string_drop].
      destruct (String.prefix sep (String c r)) eqn:Hp.
      * pose proof (prefix_length _ _ Hp) as Hl. simpl in Hl.
        pose proof (prefix_drop _ _ Hp) as Hd.
        pose proof (split_from_nonempty sep (String.length sep - 1) r) as Hne.
        assert (IH' := IH (String.length sep - 1) ltac:(lia)).
        destruct (split_from sep (String.length sep - 1) r) as [|w ws] eqn:E; [done|].
        rewrite join_cons_cons, IH'. etransitivity; [|symmetry; exact Hd].
        destruct sep as [|a sep']; [done|]. simpl.
        by rewrite Nat.sub_0_r.
      * pose proof (split_from_nonempty sep 0 r) as Hne.
        specialize (IH 0 (Nat.le_0_l _)).
        destruct (split_from sep 0 r) as [|w ws] eqn:E; [done|].
        rewrite join_cons_char, IH. reflexivity.
    + cbn [split_from string_drop]. apply IH. simpl in Hk. lia.
Qed.

(** Joining the parts of a split with the separator gives the string
    back. *)
Lemma join_split (sep s : string) : sep <> "" -> join sep (split sep s) = s.
Proof. intros Hsep. unfold split. rewrite join_split_from by (done || lia). done. Qed.

Lemma split_nonempty (sep s : string) : split sep s <> [].
Proof. apply split_from_nonempty. Qed.

End SplitFacts.

Lemma string_app_assoc (a b c : string) : (a +:+ b) +:+ c = a +:+ (b +:+ c).
Proof.
  induction a as [|x a IH]; [done|].
  change (String x ((a +:+ b) +:+ c) = String x (a +:+ (b +:+ c))). by rewrite IH.
Qed.

Lemma string_app_nil_r (a : string) : a +:+ "" = a.
Proof.
  induction a as [|x a IH]; [done|].
  change (String x (a +:+ "") = String x a). by rewrite IH.
Qed.

(** * Further properties of [Symbol] *)

Section SymbolConstruction.
Context {RT : PyRuntime}.
Local Open Scope list_scope.

Lemma new_from_list (h : heap) (a : addr) (vs : list pyval) cls ctx :
  h !! a = Some (OList vs) ->
  let r := fresh (dom h) in
  let h1 := <[r := OSymbol (Symbol.blank cls ctx)]> h in
  let l := fresh (dom h1) in
  Symbol.new cls [PRef a] ctx h =
    (r, <[r := OSymbol (Symbol.set_value (Symbol.blank cls ctx) (PRef l))]>
          (<[l := OList (map (unwrap h1) vs)]> h1)) /\
  r <> a /\ l <> a /\ l <> r /\ h !! r = None /\ h !! l = None.
Proof.
  intros Ha r h1 l.
  pose proof (fresh_unused h) as Hr. fold r in Hr.
  pose proof (fresh_unused h1) as Hl. fold l in Hl.
  assert (r <> a) as Hra by (intros E; rewrite E in Hr; congruence).
  assert (l <> r) as Hlr.
  { intros E. rewrite E in Hl. unfold h1 in Hl. by rewrite lookup_insert_eq in Hl. }
  assert (h !! l = None) as Hl0.
  { unfold h1 in Hl. by rewrite lookup_insert_ne in Hl. }
  assert (l <> a) as Hla by (intros E; rewrite E in Hl0; congruence).
  split; [|done].
  unfold Symbol.new, new_object, Symbol.__init__. fold r. fold h1.
  unfold h1 at 1. rewrite lookup_insert_ne by done. rewrite Ha. fold h1. fold l.
  reflexivity.
Qed.

Lemma unwrap_fresh (h : heap) (o : obj) (vs : list pyval) :
  items_exist h vs ->
  map (unwrap (<[fresh (dom h) := o]> h)) vs = map (unwrap h) vs.
Proof.
  intros Hex. apply map_ext_in. intros v Hv. unfold unwrap, is_symbol.
  destruct v as [| | | | |b]; try done.
  destruct (decide (b = fresh (dom h))) as [->|Hne].
  - destruct (Hex _ Hv) as [x Hx]. by rewrite fresh_unused in Hx.
  - by rewrite lookup_insert_ne.
Qed.

(** X7: [Symbol(l)] for a list [l] holds a new list, made of the items of
    [l] with every item that is a [Symbol] replaced by its payload.  The
    two lists are independent: writing to [l] afterwards does not change
    what the symbol holds, and writing to the symbol's list does not
    change [l]. *)
Theorem symbol_from_list_copies
    (h : heap) (a : addr) (vs : list pyval) (cls : string) (ctx : option string) :
  h !! a = Some (OList vs) -> items_exist h vs ->
  exists r h' sym l,
    Symbol.new cls [PRef a] ctx h = (r, h') /\
    h' !! r = Some (OSymbol sym) /\ value sym = PRef l /\
    l <> a /\ h !! l = None /\
    h' !! l = Some (OList (map (unwrap h) vs)) /\
    h' !! a = Some (OList vs) /\
    (forall o, contents (<[a := o]> h') r = Some (OList (map (unwrap h) vs))) /\
    (forall o, <[l := o]> h' !! a = Some (OList vs)).
Proof.
  intros Ha Hex.
  destruct (new_from_list h a vs cls ctx Ha) as (Hnew & Hra & Hla & Hlr & Hr & Hl).
  rewrite unwrap_fresh in Hnew by done.
  eexists _, _, _, _. split; [exact Hnew|].
  split; [by rewrite lookup_insert_eq|]. split; [reflexivity|].
  split; [done|]. split; [done|].
  split; [by rewrite lookup_insert_ne, lookup_insert_eq|].
  split; [by rewrite !lookup_insert_ne|]. split.
  - intros o. unfold contents, payload_ref.
    rewrite (lookup_insert_ne _ a) by done. rewrite lookup_insert_eq. simpl.
    rewrite !lookup_insert_ne by done. by rewrite lookup_insert_eq.
  - intros o. by rewrite !lookup_insert_ne.
Qed.

End SymbolConstruction.

Lemma symbol_from_list_copies_witness :
  h_list !! 0%nat = Some (OList [PInt 1]) /\
  items_exist h_list [PInt 1] /\
  exists r h' l,
    Symbol.new Symbol_cls [PRef 0%nat] None h_list = (r, h') /\
    l <> 0%nat /\
    h' !! l = Some (OList [PInt 1]) /\
    (forall o, contents (<[0%nat := o]> h') r = Some (OList [PInt 1])) /\
    (forall o, <[l := o]> h' !! 0%nat = Some (OList [PInt 1])).
Proof.
  assert (Ha : h_list !! 0%nat = Some (OList [PInt 1])) by (vm_compute; reflexivity).
  assert (Hi : items_exist h_list [PInt 1]) by (intros b [H|[]]; discriminate).
  split; [exact Ha|]. split; [exact Hi|].
  destruct (symbol_from_list_copies h_list 0%nat [PInt 1] Symbol_cls None Ha Hi)
    as (r & h' & sym & l & Hn & _ & _ & Hl & _ & Hc & _ & Hr & Hw).
  exists r, h', l. split; [exact Hn|]. split; [exact Hl|]. split; [exact Hc|].
  split; [exact Hr|exact Hw].
Defined.

Section SymbolText.
Context {RT : PyRuntime}.
Local Open Scope list_scope.

Lemma str_of_text (h : heap) (v : pyval) (t : string) :
  holds_text h v t -> Symbol.str h v = t.
Proof.
  intros [->|(s & Hs & Hv)]; unfold Symbol.str.
  - simpl. apply py_str_of_str.
  - rewrite Hs. unfold Symbol.__str__. rewrite Hv. apply py_str_of_str.
Qed.

Lemma holds_text_fresh (h : heap) (v : pyval) (t : string) (o : obj) :
  holds_text h v t -> holds_text (<[fresh (dom h) := o]> h) v t.
Proof.
  intros [->|(s & Hs & Hv)]; [by left|]. right. exists s. split; [|done].
  unfold is_symbol in *. destruct v as [| | | | |b]; try done.
  destruct (decide (b = fresh (dom h))) as [->|Hne].
  - by rewrite fresh_unused in Hs.
  - by rewrite lookup_insert_ne.
Qed.

Lemma matmul_text (w : world) (a b : pyval) :
  let r := fresh (dom (objects w)) in
  Symbol.__matmul__ a b w =
    (r, {| objects := <[r := OSymbol (sym_of
                           (PStr (Symbol.str (objects w) a +:+ Symbol.str (objects w) b)))]>
                        (objects w);
           dispatched := dispatched w |}).
Proof. unfold Symbol.__matmul__. by rewrite Symbol_of_str. Qed.

(** X8: [@] is associative on text: for symbols [a] and [b] and a symbol
    or string [c] that hold the texts [ta], [tb] and [tc], both
    [(a @ b) @ c] and [a @ (b @ c)] are symbols holding [ta + tb + tc],
    and neither sends anything to an engine. *)
Theorem matmul_associative_on_text
    (w : world) (a b c : pyval) (sa sb : instance) (ta tb tc : string) :
  is_symbol (objects w) a = Some sa -> value sa = PStr ta ->
  is_symbol (objects w) b = Some sb -> value sb = PStr tb ->
  holds_text (objects w) c tc ->
  let '(ab, w1) := Symbol.__matmul__ a b w in
  let '(ab_c, w2) := Symbol.__matmul__ (PRef ab) c w1 in
  let '(bc, w3) := Symbol.__matmul__ b c w in
  let '(a_bc, w4) := Symbol.__matmul__ a (PRef bc) w3 in
  holds_text (objects w2) (PRef ab_c) (ta +:+ tb +:+ tc) /\
  holds_text (objects w4) (PRef a_bc) (ta +:+ tb +:+ tc) /\
  dispatched w2 = dispatched w /\ dispatched w4 = dispatched w.
Proof.
  intros Ha Hta Hb Htb Hc.
  assert (Hat : holds_text (objects w) a ta) by (right; eauto).
  assert (Hbt : holds_text (objects w) b tb) by (right; eauto).
  rewrite !matmul_text. simpl.
  rewrite (str_of_text _ a ta Hat), (str_of_text _ b tb Hbt), (str_of_text _ c tc Hc).
  set (h1 := <[fresh (dom (objects w)) := OSymbol (sym_of (PStr (ta +:+ tb)))]> (objects w)).
  set (h3 := <[fresh (dom (objects w)) := OSymbol (sym_of (PStr (tb +:+ tc)))]> (objects w)).
  assert (H1 : holds_text h1 (PRef (fresh (dom (objects w)))) (ta +:+ tb)).
  { right. eexists. unfold is_symbol, h1. rewrite lookup_insert_eq. done. }
  assert (H3 : holds_text h3 (PRef (fresh (dom (objects w)))) (tb +:+ tc)).
  { right. eexists. unfold is_symbol, h3. rewrite lookup_insert_eq. done. }
  rewrite (str_of_text h1 _ _ H1).
  rewrite (str_of_text h1 c tc (holds_text_fresh _ _ _ _ Hc)).
  rewrite (str_of_text h3 a ta (holds_text_fresh _ _ _ _ Hat)).
  rewrite (str_of_text h3 _ _ H3).
  split; [|split; [|done]].
  - right. eexists. unfold is_symbol. rewrite lookup_insert_eq. split; [done|].
    simpl. by rewrite string_app_assoc.
  - right. eexists. unfold is_symbol. rewrite lookup_insert_eq. done.
Qed.

(** X9: [a @= b] returns [a] itself, and what it leaves as the payload of
    [a] is not the concatenated string but a new [Symbol] that holds it;
    nothing is sent to an engine and no other object changes. *)
Theorem imatmul_wraps_a_symbol (w : world) (self : addr) (sa : instance) (other : pyval) :
  objects w !! self = Some (OSymbol sa) ->
  exists r w' sa',
    Symbol.__imatmul__ self other w = (self, w') /\
    objects w !! r = None /\
    objects w' !! self = Some (OSymbol sa') /\
    value sa' = PRef r /\
    objects w' !! r =
      Some (OSymbol (sym_of (PStr (Symbol.__str__ (objects w) sa
                                     +:+ Symbol.str (objects w) other)))) /\
    (forall l, l <> self -> l <> r -> objects w' !! l = objects w !! l) /\
    dispatched w' = dispatched w.
Proof.
  intros Hs. unfold Symbol.__imatmul__. rewrite Symbol_of_str.
  pose proof (fresh_unused (objects w)) as Hf.
  set (r := fresh (dom (objects w))) in *.
  assert (Hne : r <> self) by (intros E; rewrite E in Hf; congruence).
  unfold Symbol.assign_value. rewrite lookup_insert_ne by done. rewrite Hs.
  eexists r, _, _. split; [reflexivity|]. simpl.
  split; [done|]. split; [by rewrite lookup_insert_eq|]. split; [reflexivity|].
  split.
  - rewrite lookup_insert_ne by done. rewrite lookup_insert_eq.
    unfold Symbol.str at 1, is_symbol. by rewrite Hs.
  - split; [|done]. intros l Hl1 Hl2. by rewrite !lookup_insert_ne.
Qed.

End SymbolText.

Lemma matmul_associative_on_text_witness :
  is_symbol (objects w_two) (PRef 0%nat) = Some (sym_of (PStr "ab")) /\
  is_symbol (objects w_two) (PRef 1%nat) = Some (sym_of (PStr "cd")) /\
  holds_text (objects w_two) (PStr "ef") "ef" /\
  let '(ab, w1) := Symbol.__matmul__ (PRef 0%nat) (PRef 1%nat) w_two in
  let '(ab_c, w2) := Symbol.__matmul__ (PRef ab) (PStr "ef") w1 in
  let '(bc, w3) := Symbol.__matmul__ (PRef 1%nat) (PStr "ef") w_two in
  let '(a_bc, w4) := Symbol.__matmul__ (PRef 0%nat) (PRef bc) w3 in
  holds_text (objects w2) (PRef ab_c) "abcdef" /\
  holds_text (objects w4) (PRef a_bc) "abcdef" /\
  dispatched w2 = dispatched w_two /\ dispatched w4 = dispatched w_two.
Proof.
  assert (Ha : is_symbol (objects w_two) (PRef 0%nat) = Some (sym_of (PStr "ab")))
    by (vm_compute; reflexivity).
  assert (Hb : is_symbol (objects w_two) (PRef 1%nat) = Some (sym_of (PStr "cd")))
    by (vm_compute; reflexivity).
  assert (Hc : holds_text (objects w_two) (PStr "ef") "ef") by (left; reflexivity).
  split; [exact Ha|]. split; [exact Hb|]. split; [exact Hc|].
  exact (matmul_associative_on_text w_two (PRef 0%nat) (PRef 1%nat) (PStr "ef")
           (sym_of (PStr "ab")) (sym_of (PStr "cd")) "ab" "cd" "ef"
           Ha eq_refl Hb eq_refl Hc).
Defined.

Lemma imatmul_wraps_a_symbol_witness :
  objects w_two !! 0%nat = Some (OSymbol (sym_of (PStr "ab"))) /\
  exists r w' sa',
    Symbol.__imatmul__ 0%nat (PRef 1%nat) w_two = (0%nat, w') /\
    objects w' !! 0%nat = Some (OSymbol sa') /\
    value sa' = PRef r /\
    objects w' !! r = Some (OSymbol (sym_of (PStr "abcd"))) /\
    dispatched w' = dispatched w_two.
Proof.
  assert (Ha : objects w_two !! 0%nat = Some (OSymbol (sym_of (PStr "ab"))))
    by (vm_compute; reflexivity).
  split; [exact Ha|].
  destruct (imatmul_wraps_a_symbol w_two 0%nat (sym_of (PStr "ab")) (PRef 1%nat) Ha)
    as (r & w' & sa' & Hi & _ & Hs & Hv & Hr & _ & Hd).
  exists r, w', sa'. split; [exact Hi|]. split; [exact Hs|]. split; [exact Hv|].
  split; [exact Hr|exact Hd].
Defined.

Section SymbolItems.
Context {RT : PyRuntime} {BE : Backend} {RP : PyRepr}.
Local Open Scope list_scope.

Lemma unwrap_strings (h : heap) (parts : list string) :
  map (unwrap h) (map PStr parts) = map PStr parts.
Proof. induction parts as [|p ps IH]; simpl; [done|]. by rewrite IH. Qed.

(** X10: [a / b] splits [str(a)] at [str(b)]: the result is a new [Symbol]
    holding a list of strings, never empty, which joined with [str(b)]
    give [str(a)] back; nothing is sent to an engine and no earlier object
    changes.  With an empty [str(b)] it raises [ValueError]. *)
Theorem truediv_splits (w : world) (self other : pyval) :
  (Symbol.str (objects w) other = "" ->
   Symbol.__truediv__ self other w = inr (Exception "ValueError" "empty separator" None)) /\
  (Symbol.str (objects w) other <> "" ->
   exists r w' sym l parts,
     Symbol.__truediv__ self other w = inl (r, w') /\
     objects w' !! r = Some (OSymbol sym) /\ value sym = PRef l /\
     objects w' !! l = Some (OList (map PStr parts)) /\
     parts <> [] /\
     join (Symbol.str (objects w) other) parts = Symbol.str (objects w) self /\
     (forall a, is_Some (objects w !! a) -> objects w' !! a = objects w !! a) /\
     dispatched w' = dispatched w).
Proof.
  unfold Symbol.__truediv__. split.
  - by intros ->.
  - intros Hsep.
    destruct (Symbol.str (objects w) other) as [|c sep'] eqn:Hs; [done|]. simpl is_empty.
    cbv iota. unfold new_object at 1.
    set (parts := split (String c sep') (Symbol.str (objects w) self)).
    set (t := fresh (dom (objects w))).
    set (h1 := <[t := OList (map PStr parts)]> (objects w)).
    assert (Ht : h1 !! t = Some (OList (map PStr parts)))
      by (unfold h1; by rewrite lookup_insert_eq).
    unfold Symbol.Symbol_.
    destruct (new_from_list h1 t (map PStr parts) "<class 'symai.symbol.Symbol'>" (Some "") Ht)
      as (Hnew & Hrt & Hlt & Hlr & Hr & Hl).
    rewrite Hnew. rewrite unwrap_strings.
    eexists _, _, _, _, parts. split; [reflexivity|]. simpl.
    split; [by rewrite lookup_insert_eq|]. split; [reflexivity|].
    split; [by rewrite lookup_insert_ne, lookup_insert_eq|].
    split; [apply split_nonempty|]. split; [by apply join_split|].
    split; [|done]. intros a [o Ho].
    assert (a <> t).
    { intros ->. pose proof (fresh_unused (objects w)) as Hf. fold t in Hf. congruence. }
    assert (h1 !! a = Some o) as Ha1 by (unfold h1; by rewrite lookup_insert_ne).
    rewrite !lookup_insert_ne; congruence.
Qed.

Lemma key_matches_refl (key : pyval) :
  is_key key = true -> Symbol.key_matches key key = true.
Proof.
  destruct key as [|b|z|s|vs|a]; simpl; intros H;
    first [done | by destruct b | apply Z.eqb_refl | apply String.eqb_refl].
Qed.

End SymbolItems.

Lemma truediv_splits_witness :
  Symbol.__truediv__ (PRef 0%nat) (PStr "") w_two
  = inr (Exception "ValueError" "empty separator" None) /\
  Symbol.str (objects w_two) (PStr "b") <> "" /\
  exists r w' sym l parts,
    Symbol.__truediv__ (PRef 0%nat) (PStr "b") w_two = inl (r, w') /\
    objects w' !! r = Some (OSymbol sym) /\ value sym = PRef l /\
    objects w' !! l = Some (OList (map PStr parts)) /\
    join "b" parts = "ab" /\
    dispatched w' = dispatched w_two.
Proof.
  split; [exact (proj1 (truediv_splits w_two (PRef 0%nat) (PStr "")) eq_refl)|].
  assert (Hs : Symbol.str (objects w_two) (PStr "b") <> "") by (vm_compute; discriminate).
  split; [exact Hs|].
  destruct (proj2 (truediv_splits w_two (PRef 0%nat) (PStr "b")) Hs)
    as (r & w' & sym & l & parts & Ht & Hr & Hv & Hl & _ & Hj & _ & Hd).
  exists r, w', sym, l, parts. split; [exact Ht|]. split; [exact Hr|]. split; [exact Hv|].
  split; [exact Hl|]. split; [exact Hj|exact Hd].
Defined.

Section SymbolIndexing.
Context {RT : PyRuntime} {BE : Backend} {RP : PyRepr}.
Local Open Scope list_scope.

(** X11: indexing a [Symbol] whose payload is a list with an [int] is done
    on the spot: an index in range, counted from the front or, when
    negative, from the back, gives the item itself, with nothing sent to an
    engine and nothing changed; an index out of range raises the list's own
    [IndexError]. *)
Theorem getitem_of_list
    (w : world) (self a : addr) (s : instance) (vs : list pyval) (key : pyval) (i : Z) :
  objects w !! self = Some (OSymbol s) -> value s = PRef a ->
  objects w !! a = Some (OList vs) -> Symbol.index_key key = Some i ->
  let n := Z.of_nat (List.length vs) in
  (0 <= i < n ->
     Symbol.__getitem__ self key w = inl (nth (Z.to_nat i) vs PNone, w)) /\
  (- n <= i < 0 ->
     Symbol.__getitem__ self key w = inl (nth (Z.to_nat (i + n)) vs PNone, w)) /\
  (i < - n \/ n <= i ->
     Symbol.__getitem__ self key w =
       inr (Exception "IndexError" "list index out of range" None)).
Proof.
  intros Hs Hv Ha Hk n. unfold Symbol.__getitem__. rewrite Hs, Hv, Ha, Hk.
  unfold Symbol.seq_get. fold n. repeat split.
  - intros Hi. destruct (i <? 0) eqn:E; [lia|].
    replace ((0 <=? i) && (i <? n)) with true by lia.
    rewrite (nth_error_nth' vs PNone) by lia. done.
  - intros Hi. destruct (i <? 0) eqn:E; [|lia].
    replace ((0 <=? i + n) && (i + n <? n)) with true by lia.
    rewrite (nth_error_nth' vs PNone) by lia. done.
  - intros Hi. destruct (i <? 0) eqn:E.
    + replace ((0 <=? i + n) && (i + n <? n)) with false by lia. done.
    + replace ((0 <=? i) && (i <? n)) with false by lia. done.
Qed.

Lemma dict_get_set (key v : pyval) (kvs : list (pyval * pyval)) :
  is_key key = true -> Symbol.dict_get key (Symbol.dict_set key v kvs) = Some v.
Proof.
  intros Hk. induction kvs as [|[k v0] rest IH]; simpl.
  - by rewrite key_matches_refl.
  - destruct (Symbol.key_matches key k) eqn:E; simpl; rewrite E; [done|exact IH].
Qed.

Lemma is_key_cases (key : pyval) :
  is_key key = true ->
  (exists i, Symbol.index_key key = Some i) \/
  (Symbol.index_key key = None /\ exists t, key = PStr t).
Proof. destruct key; simpl; try done; eauto. Qed.

(** X12: on a [Symbol] whose payload is a dict, [sym[key] = v] with a
    [str] or [int] key writes into that dict and nothing else, and
    [sym[key]] then gives [v] back; neither sends anything to an engine. *)
Theorem setitem_then_getitem_of_dict
    (w : world) (self a : addr) (s : instance) (kvs : list (pyval * pyval))
    (key v : pyval) :
  objects w !! self = Some (OSymbol s) -> value s = PRef a ->
  objects w !! a = Some (ODict kvs) -> is_key key = true ->
  exists w',
    Symbol.__setitem__ self key v w = inl w' /\
    objects w' = <[a := ODict (Symbol.dict_set key v kvs)]> (objects w) /\
    dispatched w' = dispatched w /\
    Symbol.__getitem__ self key w' = inl (v, w').
Proof.
  intros Hs Hv Ha Hk.
  assert (Hne : a <> self) by (intros ->; congruence).
  assert (Hset : Symbol.__setitem__ self key v w =
                 inl {| objects := <[a := ODict (Symbol.dict_set key v kvs)]> (objects w);
                        dispatched := dispatched w |}).
  { unfold Symbol.__setitem__. rewrite Hs, Hv.
    destruct (is_key_cases key Hk) as [[i Hi]|[Hi [t ->]]].
    - rewrite Hi, Ha. reflexivity.
    - simpl. by rewrite Ha. }
  eexists. split; [exact Hset|]. split; [done|]. split; [done|].
  unfold Symbol.__getitem__. simpl.
  rewrite lookup_insert_ne by done. rewrite Hs, Hv, lookup_insert_eq.
  destruct (is_key_cases key Hk) as [[i Hi]|[Hi [t ->]]].
  - rewrite Hi. by rewrite dict_get_set.
  - simpl. by rewrite (dict_get_set (PStr t) v kvs Hk).
Qed.

(** X13: a key that the dict payload does not hold raises one [KeyError]
    whose argument is a message that names the key and the payload, so
    that [str()] of the error is the [repr()] of that message, with the
    dict's own [KeyError] as its context. *)
Theorem getitem_missing_key
    (w : world) (self a : addr) (s : instance) (kvs : list (pyval * pyval))
    (key : pyval) :
  objects w !! self = Some (OSymbol s) -> value s = PRef a ->
  objects w !! a = Some (ODict kvs) -> is_key key = true ->
  Symbol.dict_get key kvs = None ->
  Symbol.__getitem__ self key w =
    inr (Exception "KeyError"
           (py_repr (objects w)
              (PStr ("Key " +:+ py_str (objects w) key +:+ " not found in "
                       +:+ py_str (objects w) (PRef a))))
           (Some (Exception "KeyError" (py_repr (objects w) key) None))).
Proof.
  intros Hs Hv Ha Hk Hmiss. unfold Symbol.__getitem__. rewrite Hs, Hv, Ha.
  destruct (is_key_cases key Hk) as [[i Hi]|[Hi [t ->]]].
  - rewrite Hi, Hmiss. reflexivity.
  - simpl. simpl in Hmiss. by rewrite Hmiss.
Qed.

(** X14: indexing a [Symbol] whose payload is a string is left to the
    engine: exactly one "getitem" request goes out, about the string and
    the key, and what comes back is a new [Symbol]. *)
Theorem getitem_of_text_dispatches
    (w : world) (self : addr) (s : instance) (t : string) (key : pyval) :
  objects w !! self = Some (OSymbol s) -> value s = PStr t ->
  exists r w',
    Symbol.__getitem__ self key w = inl (PRef r, w') /\
    objects w !! r = None /\
    dispatched w' =
      dispatched w ++ [{| operation := "getitem"; subject := t;
                          operands := [Symbol.str (objects w) key] |}].
Proof.
  intros Hs Hv.
  assert (Hstr : Symbol.str (objects w) (PRef self) = t).
  { unfold Symbol.str, is_symbol. rewrite Hs. unfold Symbol.__str__. rewrite Hv.
    apply py_str_of_str. }
  assert (Hd : exists r w', Symbol.getitem_dispatch (PRef self) key w = (PRef r, w') /\
             objects w !! r = None /\
             dispatched w' =
               dispatched w ++ [{| operation := "getitem"; subject := t;
                                   operands := [Symbol.str (objects w) key] |}]).
  { unfold Symbol.getitem_dispatch. rewrite Hstr.
    unfold Symbol.Symbol_, Symbol.new, new_object.
    eexists _, _. split; [reflexivity|]. split; [apply fresh_unused|done]. }
  destruct Hd as (r & w' & Hd & Hr & Hlog). exists r, w'.
  split; [|done]. unfold Symbol.__getitem__. rewrite Hs, Hv.
  destruct (Symbol.index_key key); [by rewrite Hd|].
  destruct key; by rewrite Hd.
Qed.

End SymbolIndexing.

Lemma getitem_of_list_witness :
  objects w_list !! 1%nat = Some (OSymbol (sym_of (PRef 0%nat))) /\
  objects w_list !! 0%nat = Some (OList [PInt 10; PInt 20; PInt 30]) /\
  Symbol.__getitem__ (BE := echo_engine word_tokenizer 10) 1%nat (PInt 1) w_list = inl (PInt 20, w_list) /\
  Symbol.__getitem__ (BE := echo_engine word_tokenizer 10) 1%nat (PInt (-1)) w_list = inl (PInt 30, w_list) /\
  Symbol.__getitem__ (BE := echo_engine word_tokenizer 10) 1%nat (PInt 3) w_list
  = inr (Exception "IndexError" "list index out of range" None).
Proof.
  assert (Hs : objects w_list !! 1%nat = Some (OSymbol (sym_of (PRef 0%nat))))
    by (vm_compute; reflexivity).
  assert (Hl : objects w_list !! 0%nat = Some (OList [PInt 10; PInt 20; PInt 30]))
    by (vm_compute; reflexivity).
  split; [exact Hs|]. split; [exact Hl|]. split; [|split].
  - exact (proj1 (getitem_of_list (BE := echo_engine word_tokenizer 10) w_list 1%nat 0%nat (sym_of (PRef 0%nat))
                    [PInt 10; PInt 20; PInt 30] (PInt 1) 1 Hs eq_refl Hl eq_refl)
             ltac:(simpl; lia)).
  - exact (proj1 (proj2 (getitem_of_list (BE := echo_engine word_tokenizer 10) w_list 1%nat 0%nat (sym_of (PRef 0%nat))
                    [PInt 10; PInt 20; PInt 30] (PInt (-1)) (-1) Hs eq_refl Hl eq_refl))
             ltac:(simpl; lia)).
  - exact (proj2 (proj2 (getitem_of_list (BE := echo_engine word_tokenizer 10) w_list 1%nat 0%nat (sym_of (PRef 0%nat))
                    [PInt 10; PInt 20; PInt 30] (PInt 3) 3 Hs eq_refl Hl eq_refl))
             ltac:(simpl; lia)).
Defined.

Lemma setitem_then_getitem_of_dict_witness :
  objects w_dict !! 1%nat = Some (OSymbol (sym_of (PRef 0%nat))) /\
  objects w_dict !! 0%nat = Some (ODict [(PStr "k", PInt 1)]) /\
  is_key (PStr "n") = true /\
  exists w',
    Symbol.__setitem__ (BE := echo_engine word_tokenizer 10) 1%nat (PStr "n") (PInt 2) w_dict = inl w' /\
    objects w' !! 0%nat = Some (ODict [(PStr "k", PInt 1); (PStr "n", PInt 2)]) /\
    dispatched w' = dispatched w_dict /\
    Symbol.__getitem__ (BE := echo_engine word_tokenizer 10) 1%nat (PStr "n") w' = inl (PInt 2, w').
Proof.
  assert (Hs : objects w_dict !! 1%nat = Some (OSymbol (sym_of (PRef 0%nat))))
    by (vm_compute; reflexivity).
  assert (Hl : objects w_dict !! 0%nat = Some (ODict [(PStr "k", PInt 1)]))
    by (vm_compute; reflexivity).
  split; [exact Hs|]. split; [exact Hl|]. split; [reflexivity|].
  destruct (setitem_then_getitem_of_dict (BE := echo_engine word_tokenizer 10) w_dict 1%nat 0%nat (sym_of (PRef 0%nat))
              [(PStr "k", PInt 1)] (PStr "n") (PInt 2) Hs eq_refl Hl eq_refl)
    as (w' & Hset & Ho & Hd & Hg).
  exists w'. split; [exact Hset|]. split; [|split; [exact Hd|exact Hg]].
  rewrite Ho. apply lookup_insert_eq.
Defined.

Lemma getitem_missing_key_witness :
  objects w_dict_int !! 1%nat = Some (OSymbol (sym_of (PRef 0%nat))) /\
  objects w_dict_int !! 0%nat = Some (ODict [(PInt 1, PStr "one"); (PStr "k", PInt 2)]) /\
  Symbol.dict_get (PInt 5) [(PInt 1, PStr "one"); (PStr "k", PInt 2)] = None /\
  Symbol.__getitem__ (BE := echo_engine word_tokenizer 10) 1%nat (PInt 5) w_dict_int
  = inr (Exception "KeyError"
           (String double_quote "Key 5 not found in {1: 'one', 'k': 2}"
              +:+ String double_quote "")
           (Some (Exception "KeyError" "5" None))) /\
  Symbol.__getitem__ (BE := echo_engine word_tokenizer 10) 1%nat (PStr "n") w_dict_int
  = inr (Exception "KeyError"
           (String double_quote "Key n not found in {1: 'one', 'k': 2}"
              +:+ String double_quote "")
           (Some (Exception "KeyError" "'n'" None))).
Proof.
  assert (Hs : objects w_dict_int !! 1%nat = Some (OSymbol (sym_of (PRef 0%nat))))
    by (vm_compute; reflexivity).
  assert (Hl : objects w_dict_int !! 0%nat
               = Some (ODict [(PInt 1, PStr "one"); (PStr "k", PInt 2)]))
    by (vm_compute; reflexivity).
  split; [exact Hs|]. split; [exact Hl|]. split; [reflexivity|]. split.
  - rewrite (getitem_missing_key (BE := echo_engine word_tokenizer 10) w_dict_int 1%nat 0%nat
               (sym_of (PRef 0%nat)) [(PInt 1, PStr "one"); (PStr "k", PInt 2)]
               (PInt 5) Hs eq_refl Hl eq_refl eq_refl).
    vm_compute. reflexivity.
  - rewrite (getitem_missing_key (BE := echo_engine word_tokenizer 10) w_dict_int 1%nat 0%nat
               (sym_of (PRef 0%nat)) [(PInt 1, PStr "one"); (PStr "k", PInt 2)]
               (PStr "n") Hs eq_refl Hl eq_refl eq_refl).
    vm_compute. reflexivity.
Defined.

Lemma getitem_of_text_dispatches_witness :
  objects w_two !! 0%nat = Some (OSymbol (sym_of (PStr "ab"))) /\
  exists r w',
    Symbol.__getitem__ (BE := echo_engine word_tokenizer 10) 0%nat (PInt 0) w_two
    = inl (PRef r, w') /\
    objects w_two !! r = None /\
    dispatched w' =
      [{| operation := "getitem"; subject := "ab"; operands := ["0"] |}].
Proof.
  assert (Ha : objects w_two !! 0%nat = Some (OSymbol (sym_of (PStr "ab"))))
    by (vm_compute; reflexivity).
  split; [exact Ha|].
  exact (getitem_of_text_dispatches (BE := echo_engine word_tokenizer 10)
           w_two 0%nat (sym_of (PStr "ab")) "ab" (PInt 0) Ha eq_refl).
Defined.

(** * Further properties of the token-budgeted memory *)

Section StringMemoryMore.
Import SlidingWindowStringConcatMemory.
Context {BE : Backend}.
Local Open Scope list_scope.

Lemma lstrip_head (s : string) (c : ascii) (r : string) :
  lstrip s = String c r -> is_space c = false.
Proof.
  induction s as [|x s IH]; simpl; [done|].
  destruct (is_space x) eqn:Hx; [exact IH|]. by intros [= <- _].
Qed.

Lemma split_head (c : ascii) (r : string) :
  c <> " "%char -> exists w ws, split " " (String c r) = String c w :: ws.
Proof.
  intros Hc. unfold split. cbn [split_from String.prefix].
  destruct (ascii_dec " " c) as [E|_]; [by destruct Hc|].
  pose proof (split_from_nonempty " " 0 r) as Hne.
  destruct (split_from " " 0 r) as [|w ws]; [done|]. by eexists _, _.
Qed.

(** X15: a pass of the loop of [store] over a buffer that has a
    whitespace-delimited unit drops at least one unit, whole, from the
    front: counted in such units the buffer gets strictly shorter. *)
Theorem evict_drops_a_unit (m : string) :
  words m <> [] ->
  exists dropped,
    dropped <> [] /\ words m = dropped ++ words (evict m) /\
    (List.length (words (evict m)) < List.length (words m))%nat.
Proof.
  intros Hw.
  assert (Hex : exists dropped, dropped <> [] /\ words m = dropped ++ words (evict m)).
  { unfold evict. rewrite <- (words_strip m) in *.
    destruct (strip m) as [|c r] eqn:Hs; [done|].
    assert (Hc : is_space c = false) by (unfold strip in Hs; by apply lstrip_head in Hs).
    assert (Hsp : c <> " "%char) by (intros ->; done).
    destruct (split_head c r Hsp) as (w & ws & Hsplit).
    pose proof (join_split_space (String c r)) as Hj. rewrite Hsplit in *.
    destruct ws as [|p1 rest]; simpl tl.
    - exists (words (String c r)). split; [done|]. by rewrite app_nil_r.
    - exists (words (String c w)). split; [by apply words_nonspace_nonempty|].
      rewrite <- Hj at 1. rewrite join_cons_cons.
      change (" " +:+ join " " (p1 :: rest)) with (String " " (join " " (p1 :: rest))).
      by apply words_app_space. }
  destruct Hex as (d & Hd & Heq). exists d. split; [done|]. split; [done|].
  rewrite Heq, length_app. destruct d; [done|]. simpl. lia.
Qed.

(** X16: joining the segments of [history()] with the marker gives the
    buffer back, and there is always at least one segment. *)
Theorem history_joins_back (self : t) :
  marker self <> "" ->
  join (marker self) (history self) = _memory self /\ history self <> [].
Proof.
  intros Hm. unfold history. split; [by apply join_split|apply split_nonempty].
Qed.

End StringMemoryMore.

Lemma evict_drops_a_unit_witness :
  words "one two" <> [] /\
  exists dropped,
    dropped <> [] /\
    words "one two" = (dropped ++ words (SlidingWindowStringConcatMemory.evict "one two"))%list /\
    (List.length (words (SlidingWindowStringConcatMemory.evict "one two"))
     < List.length (words "one two"))%nat.
Proof.
  assert (H : words "one two" <> []) by (vm_compute; discriminate).
  split; [exact H|]. exact (evict_drops_a_unit "one two" H).
Defined.

Lemma history_joins_back_witness :
  SlidingWindowStringConcatMemory.marker mem_ab <> "" /\
  join (SlidingWindowStringConcatMemory.marker mem_ab)
       (SlidingWindowStringConcatMemory.history mem_ab)
  = SlidingWindowStringConcatMemory._memory mem_ab /\
  SlidingWindowStringConcatMemory.history mem_ab <> [].
Proof.
  assert (H : SlidingWindowStringConcatMemory.marker mem_ab <> "")
    by (vm_compute; discriminate).
  split; [exact H|]. exact (history_joins_back mem_ab H).
Defined.

Section StoredHistory.
Import SlidingWindowStringConcatMemory.
Context {BE : Backend}.
Local Open Scope list_scope.

Lemma split_from_skip (sep p rest : string) :
  split_from sep (String.length p) (p +:+ rest) = split_from sep 0 rest.
Proof.
  induction p as [|c p IH]; [by destruct rest|]. exact IH.
Qed.

Lemma prefix_app_long (p x y : string) :
  (String.length p <= String.length x)%nat ->
  String.prefix p (x +:+ y) = String.prefix p x.
Proof.
  revert x. induction p as [|a p IH]; intros x Hl.
  - by destruct x, y.
  - destruct x as [|b x]; [simpl in Hl; lia|].
    change (String b x +:+ y) with (String b (x +:+ y)). simpl.
    destruct (ascii_dec a b); [|done]. apply IH. simpl in Hl. lia.
Qed.

Lemma split_entry_aux (sep a rest : string) :
  sep <> "" ->
  (forall i, (i < String.length a)%nat ->
     String.prefix sep (string_drop i (a +:+ sep)) = false) ->
  split_from sep 0 (a +:+ sep +:+ rest) = a :: split_from sep 0 rest.
Proof.
  intros Hsep. induction a as [|c a IH]; intros Hfree.
  - change ("" +:+ sep +:+ rest) with (sep +:+ rest).
    destruct sep as [|x sep']; [done|].
    change (String x sep' +:+ rest) with (String x (sep' +:+ rest)).
    cbn [split_from].
    change (String x (sep' +:+ rest)) with (String x sep' +:+ rest).
    rewrite prefix_app.
    replace (String.length (String x sep') - 1)%nat with (String.length sep')
      by (simpl; lia).
    by rewrite split_from_skip.
  - change (String c a +:+ sep +:+ rest) with (String c (a +:+ sep +:+ rest)).
    cbn [split_from].
    assert (Hp : String.prefix sep (String c (a +:+ sep +:+ rest)) = false).
    { change (String c (a +:+ sep +:+ rest)) with (String c a +:+ (sep +:+ rest)).
      rewrite <- string_app_assoc. rewrite prefix_app_long.
      - apply (Hfree 0%nat). simpl. lia.
      - rewrite string_length_app. lia. }
    rewrite Hp. rewrite IH; [done|].
    intros i Hi. apply (Hfree (S i)). simpl. lia.
Qed.

Lemma marker_free_spec (marker entry : string) :
  marker_free marker entry = true ->
  forall i, (i < String.length entry)%nat ->
    String.prefix marker (string_drop i (entry +:+ marker)) = false.
Proof.
  unfold marker_free. rewrite forallb_forall. intros H i Hi.
  apply negb_true_iff, H, in_seq. lia.
Qed.

Lemma split_entry (sep a rest : string) :
  sep <> "" -> marker_free sep a = true ->
  split sep (a +:+ sep +:+ rest) = a :: split sep rest.
Proof.
  intros Hsep Hfree. apply split_entry_aux; [done|]. by apply marker_free_spec.
Qed.

Lemma split_framed_entries (sep : string) (entries : list string) :
  sep <> "" -> forallb (marker_free sep) entries = true ->
  split sep (framed_entries sep entries) = entries ++ [""].
Proof.
  intros Hsep. induction entries as [|e es IH]; simpl; [done|].
  intros [He Hes]%andb_true_iff. rewrite split_entry by done. by rewrite IH.
Qed.

Lemma framed_entries_snoc (sep : string) (entries : list string) (e : string) :
  framed_entries sep (entries ++ [e]) = framed_entries sep entries +:+ e +:+ sep.
Proof.
  induction entries as [|x xs IH]; simpl.
  - by rewrite string_app_nil_r.
  - by rewrite IH, !string_app_assoc.
Qed.

Lemma store_within_budget (self : t) (q : string) :
  over_budget self (appended self q) = inl false ->
  store self q = Some (Returned {| _memory := appended self q; marker := marker self;
                                   token_ratio := token_ratio self |}).
Proof. intros Ho. unfold store. simpl. by rewrite Ho. Qed.

Lemma store_all_text_snoc (self : t) (qs : list string) (q : string) :
  store_all self (qs ++ [q]) =
    match store_all self qs with
    | Some m => match store m q with Some (Returned m') => Some m' | _ => None end
    | None => None
    end.
Proof. unfold store_all. by rewrite fold_left_app. Qed.

(** X17: texts stored one after the other into an empty memory, none of
    them evicted and none of them hiding the marker, come back from
    [history()] in the order they were stored, followed by one empty
    segment: [n] stored texts make [n + 1] segments. *)
Theorem history_of_stored (self : t) (entries : list string) :
  marker self <> "" -> _memory self = "" ->
  forallb (marker_free (marker self)) entries = true ->
  (forall k, (k <= List.length entries)%nat ->
     over_budget self (framed_entries (marker self) (take k entries)) = inl false) ->
  exists self',
    store_all self entries = Some self' /\
    _memory self' = framed_entries (marker self) entries /\
    history self' = entries ++ [""].
Proof.
  intros Hm Hempty Hfree Hbudget.
  assert (Hall : store_all self entries =
                 Some {| _memory := framed_entries (marker self) entries;
                         marker := marker self; token_ratio := token_ratio self |}).
  { clear Hfree. induction entries as [|e es IH] using rev_ind.
    - simpl. unfold store_all. simpl. rewrite <- Hempty. by destruct self.
    - rewrite store_all_text_snoc, IH.
      + rewrite store_within_budget.
        * unfold appended. simpl. by rewrite framed_entries_snoc.
        * unfold appended. simpl.
          specialize (Hbudget (List.length (es ++ [e])) (Nat.le_refl _)).
          rewrite firstn_all, framed_entries_snoc in Hbudget.
          exact Hbudget.
      + intros k Hk. specialize (Hbudget k). rewrite length_app in Hbudget.
        rewrite take_app_le in Hbudget by lia. apply Hbudget. simpl. lia. }
  eexists. split; [exact Hall|]. split; [done|].
  unfold history. simpl. by apply split_framed_entries.
Qed.

End StoredHistory.

Lemma history_of_stored_witness :
  exists self',
    SlidingWindowStringConcatMemory.store_all (BE := echo_engine word_tokenizer 100)
      (SlidingWindowStringConcatMemory.__init__
         SlidingWindowStringConcatMemory.default_token_ratio) ["a"; "b"] = Some self' /\
    SlidingWindowStringConcatMemory._memory self' = "a[--++=|=++--]b[--++=|=++--]" /\
    SlidingWindowStringConcatMemory.history self' = ["a"; "b"; ""].
Proof.
  apply (history_of_stored (BE := echo_engine word_tokenizer 100)
           (SlidingWindowStringConcatMemory.__init__
         SlidingWindowStringConcatMemory.default_token_ratio) ["a"; "b"]).
  - vm_compute. discriminate.
  - reflexivity.
  - vm_compute. reflexivity.
  - intros k Hk.
    destruct k as [|[|[|k]]]; [vm_compute; reflexivity ..|simpl in Hk; lia].
Defined.

(** * Properties of the file merger *)

Section FileMergerFacts.
Context {SV : Services}.
Variable os_walk : string -> list (string * list string * list string).
Local Open Scope list_scope.

(** The merger joins a directory and a file name as [os.path.join] does. *)
Lemma path_join_os (root file : string) :
  FileMerger.path_join root file = os_path_join root [file].
Proof. reflexivity. Qed.

Lemma prefix_app_mono (p a b : string) :
  String.prefix p a = true -> String.prefix p (a +:+ b) = true.
Proof.
  revert a. induction p as [|x p IH]; intros a.
  - intros _. by destruct (a +:+ b).
  - destruct a as [|y a]; [done|].
    change (String y a +:+ b) with (String y (a +:+ b)). simpl.
    destruct (ascii_dec x y); [apply IH|done].
Qed.

Lemma contains_app (sub a b : string) :
  contains sub a = true -> contains sub (a +:+ b) = true.
Proof.
  induction a as [|y a IH].
  - simpl. rewrite orb_false_r. intros Hp.
    destruct sub; [|done]. by destruct b.
  - change (String y a +:+ b) with (String y (a +:+ b)).
    cbn [contains]. intros [Hp|Hc]%orb_true_iff; apply orb_true_iff.
    + left. by apply (prefix_app_mono sub (String y a) b).
    + right. by apply IH.
Qed.

Lemma path_join_extends (root file : string) :
  String.prefix "/" file = false ->
  exists x, FileMerger.path_join root file = root +:+ x.
Proof.
  intros Hf. unfold FileMerger.path_join. rewrite Hf.
  destruct (is_empty root || endswith root "/"); eauto.
Qed.

Lemma merge_files_all_excluded (self : FileMerger.t) (root : string)
    (files : list string) (acc : string * list string) :
  (forall file, In file files ->
     FileMerger.excluded self (FileMerger.path_join root file) = true) ->
  FileMerger.merge_files self root files acc = inl acc.
Proof.
  induction files as [|f fs IH]; intros Hex; simpl; [done|].
  rewrite (Hex f) by (by left). apply IH. intros file Hin. apply Hex. by right.
Qed.

(** X18: when the root path itself contains one of the excluded names,
    every file under it is skipped: the merged text is empty and the
    reader is never called, whatever the tree holds. *)
Theorem excluded_root_merges_nothing
    (self : FileMerger.t) (root_path exclude : string) :
  In exclude (FileMerger.file_excludes self) ->
  contains exclude root_path = true ->
  (forall root dirs files, In (root, dirs, files) (os_walk root_path) ->
     (exists x, root = root_path +:+ x) /\
     forall file, In file files -> String.prefix "/" file = false) ->
  FileMerger.forward os_walk self root_path = inl ("", []).
Proof.
  intros Hin Hc Hwalk. unfold FileMerger.forward.
  generalize ("", @nil string). intros acc.
  induction (os_walk root_path) as [|[[root dirs] files] rest IH]; simpl; [done|].
  destruct (Hwalk root dirs files (or_introl eq_refl)) as [[x ->] Hfiles].
  rewrite merge_files_all_excluded.
  - apply IH. intros r d f Hrdf. apply (Hwalk r d f). by right.
  - intros file Hfile. unfold FileMerger.excluded. apply existsb_exists.
    exists exclude. split; [done|].
    destruct (path_join_extends (root_path +:+ x) file (Hfiles file Hfile)) as [y ->].
    rewrite string_app_assoc. by apply contains_app.
Qed.

Lemma fold_frames_app (paths : list string) (text : string) :
  fold_left (fun text file_path => text +:+ frame_of file_path) paths text =
    text +:+ frames paths.
Proof.
  unfold frames. revert text. induction paths as [|p ps IH] using rev_ind; intros text.
  - simpl. by rewrite string_app_nil_r.
  - rewrite !fold_left_app. simpl. rewrite IH. by rewrite string_app_assoc.
Qed.

Lemma frames_snoc (paths : list string) (p : string) :
  frames (paths ++ [p]) = frames paths +:+ frame_of p.
Proof. unfold frames. by rewrite fold_left_app. Qed.

Lemma merge_files_invariant (self : FileMerger.t) (root : string)
    (files : list string) (acc acc' : string * list string) (P : string -> Prop) :
  FileMerger.merge_files self root files acc = inl acc' ->
  (forall file, In file files ->
     FileMerger.excluded self (FileMerger.path_join root file) = false ->
     FileMerger.has_ending self file = true -> P (FileMerger.path_join root file)) ->
  fst acc = frames (snd acc) -> Forall P (snd acc) ->
  fst acc' = frames (snd acc') /\ Forall P (snd acc').
Proof.
  revert acc. induction files as [|f fs IH]; intros acc; simpl.
  - intros [= <-] _ Hf HP. done.
  - intros Hm Hpick Hf HP.
    assert (Hrest : forall file, In file fs ->
              FileMerger.excluded self (FileMerger.path_join root file) = false ->
              FileMerger.has_ending self file = true ->
              P (FileMerger.path_join root file))
      by (intros file Hin; apply Hpick; by right).
    destruct (FileMerger.excluded self (FileMerger.path_join root f)) eqn:Hex;
      [by apply (IH acc)|].
    destruct (FileMerger.has_ending self f) eqn:Hend; [|by apply (IH acc)].
    destruct (read_file (FileMerger.path_join root f)) as [content|e] eqn:Hread; [|done].
    apply (IH _ Hm Hrest); simpl.
    + rewrite frames_snoc, Hf. unfold frame_of. by rewrite Hread.
    + apply Forall_app. split; [done|]. constructor; [|done].
      apply Hpick; [by left|done|done].
Qed.

Lemma merge_walk_invariant (self : FileMerger.t)
    (walk all : list (string * list string * list string))
    (acc acc' : string * list string) :
  FileMerger.merge_walk self walk acc = inl acc' ->
  (forall x, In x walk -> In x all) ->
  fst acc = frames (snd acc) -> Forall (picked self all) (snd acc) ->
  fst acc' = frames (snd acc') /\ Forall (picked self all) (snd acc').
Proof.
  revert acc. induction walk as [|[[root dirs] files] rest IH]; intros acc; simpl.
  - intros [= <-] _ Hf HP. done.
  - intros Hm Hsub Hf HP.
    destruct (FileMerger.merge_files self root files acc) as [acc1|e] eqn:Hfiles; [|done].
    destruct (merge_files_invariant self root files acc acc1 (picked self all) Hfiles)
      as [Hf1 HP1]; [|done|done|].
    + intros file Hin Hex Hend. exists root, dirs, files, file.
      split; [apply Hsub; by left|done].
    + apply (IH acc1 Hm); [|done|done]. intros x Hx. apply Hsub. by right.
Qed.

(** X19: when [forward] returns, every path it handed to the reader is a
    file of a walked directory whose name has one of the endings and whose
    path contains none of the excluded names, and the merged text is made
    of the framed contents of exactly those paths, in the order read. *)
Theorem forward_reads_only_picked
    (self : FileMerger.t) (root_path merged : string) (paths : list string) :
  FileMerger.forward os_walk self root_path = inl (merged, paths) ->
  Forall (picked self (os_walk root_path)) paths /\
  merged = frames paths.
Proof.
  unfold FileMerger.forward. intros Hm.
  destruct (merge_walk_invariant self (os_walk root_path) (os_walk root_path)
              ("", []) (merged, paths) Hm) as [Hf HP]; [done|done|done|].
  by split.
Qed.

End FileMergerFacts.

Lemma excluded_root_merges_nothing_witness :
  In ".git" (FileMerger.file_excludes FileMerger.__init__) /\
  contains ".git" "/home/u/.github" = true /\
  FileMerger.forward (SV := plain_services) walk_github FileMerger.__init__ "/home/u/.github"
  = inl ("", []).
Proof.
  assert (Hi : In ".git" (FileMerger.file_excludes FileMerger.__init__))
    by (simpl; tauto).
  assert (Hc : contains ".git" "/home/u/.github" = true) by (vm_compute; reflexivity).
  split; [exact Hi|]. split; [exact Hc|].
  apply (excluded_root_merges_nothing (SV := plain_services) walk_github
           FileMerger.__init__ "/home/u/.github" ".git" Hi Hc).
  intros root dirs files [H|[H|[]]]; injection H as <- <- <-.
  - split; [by exists ""|]. intros file [<-|[]]. reflexivity.
  - split; [by exists "/docs"|]. intros file [<-|[]]. reflexivity.
Defined.

Lemma forward_reads_only_picked_witness :
  FileMerger.forward (SV := plain_services) walk_project FileMerger.__init__ "/p"
  = inl (FileMerger.framed "/p/a.py" "contents of /p/a.py", ["/p/a.py"]) /\
  Forall (picked FileMerger.__init__ (walk_project "/p")) ["/p/a.py"] /\
  FileMerger.framed "/p/a.py" "contents of /p/a.py"
  = frames (SV := plain_services) ["/p/a.py"].
Proof.
  assert (H : FileMerger.forward (SV := plain_services) walk_project FileMerger.__init__ "/p"
              = inl (FileMerger.framed "/p/a.py" "contents of /p/a.py", ["/p/a.py"]))
    by (vm_compute; reflexivity).
  split; [exact H|].
  exact (forward_reads_only_picked (SV := plain_services) walk_project
           FileMerger.__init__ "/p" _ _ H).
Defined.

(** * Properties of the shell history *)

Section FileHistoryFacts.
Import FileHistory.
Local Open Scope list_scope.

Lemma existsb_eqb_In (x : string) (l : list string) :
  existsb (String.eqb x) l = true <-> In x l.
Proof.
  rewrite existsb_exists. split.
  - intros (y & Hy & ->%String.eqb_eq). done.
  - intros Hx. exists x. split; [done|apply String.eqb_refl].
Qed.

Lemma unique_from_In (seen lines : list string) (x : string) :
  In x (unique_from seen lines) <-> In x lines /\ ~ In x seen.
Proof.
  revert seen. induction lines as [|l ls IH]; intros seen; simpl; [tauto|].
  destruct (existsb (String.eqb l) seen) eqn:E.
  - apply existsb_eqb_In in E. rewrite IH. split.
    + intros [H1 H2]. tauto.
    + intros [[->|H1] H2]; tauto.
  - assert (~ In l seen) as Hl by (rewrite <- existsb_eqb_In; congruence).
    simpl. rewrite IH. simpl. split.
    + intros [->|[H1 H2]]; [tauto|]. split; [tauto|]. intros H. apply H2. by right.
    + intros [[->|H1] H2]; [tauto|].
      destruct (String.eqb_spec l x) as [->|Hne]; [tauto|]. right. split; [done|].
      intros [->|H]; tauto.
Qed.

Lemma unique_from_NoDup (seen lines : list string) : List.NoDup (unique_from seen lines).
Proof.
  revert seen. induction lines as [|l ls IH]; intros seen; simpl; [constructor|].
  destruct (existsb (String.eqb l) seen) eqn:E; [apply IH|].
  constructor; [|apply IH]. rewrite unique_from_In. simpl. tauto.
Qed.

Lemma rstrip_idempotent (s : string) : rstrip (rstrip s) = rstrip s.
Proof.
  induction s as [|c r IH]; [done|]. simpl.
  destruct (is_space c && is_empty (rstrip r)) eqn:E; [done|].
  simpl. by rewrite IH, E.
Qed.

Lemma rstrip_keeps_head (s : string) :
  String.prefix "#" s = false -> String.prefix "#" (rstrip s) = false.
Proof.
  destruct s as [|c r]; [done|]. cbn [rstrip].
  destruct (is_space c && is_empty (rstrip r)); [done|].
  cbn [String.prefix]. intros H.
  destruct (ascii_dec "#" c) as [E|E]; [destruct r; discriminate|done].
Qed.

Lemma strip_nonempty (s : string) : is_empty (strip s) = false -> rstrip s <> "".
Proof. unfold strip. intros H E. by rewrite E in H. Qed.

(** X20: the history that [load_history_strings] gives holds every entry
    once; no entry is empty, none starts with [#], none ends in
    whitespace, and each is a line of the file with its trailing
    whitespace removed.  Without a file the history is empty. *)
Theorem loaded_history_is_clean (lines : list string) :
  load_history_strings None = [] /\
  List.NoDup (load_history_strings (Some lines)) /\
  forall entry, In entry (load_history_strings (Some lines)) ->
    entry <> "" /\ String.prefix "#" entry = false /\ rstrip entry = entry /\
    exists line, In line lines /\ entry = rstrip line.
Proof.
  split; [done|]. unfold load_history_strings. split.
  - apply NoDup_rev, unique_from_NoDup.
  - intros entry Hin. apply in_rev in Hin. apply unique_from_In in Hin as [Hin _].
    apply in_map_iff in Hin as (line & <- & Hline).
    apply filter_In in Hline as [Hline Hkeep].
    apply andb_true_iff in Hkeep as [Hne Hhash].
    apply negb_true_iff in Hne, Hhash.
    split; [by apply strip_nonempty|]. split; [by apply rstrip_keeps_head|].
    split; [apply rstrip_idempotent|]. by exists line.
Qed.

Lemma unique_from_snoc (seen lines : list string) (x : string) :
  unique_from seen (lines ++ [x]) =
    unique_from seen lines ++
      (if existsb (String.eqb x) (seen ++ lines) then [] else [x]).
Proof.
  revert seen. induction lines as [|l ls IH]; intros seen; simpl.
  - rewrite app_nil_r. by destruct (existsb (String.eqb x) seen).
  - destruct (existsb (String.eqb l) seen) eqn:E.
    + rewrite IH. f_equal.
      assert (Heq : existsb (String.eqb x) (seen ++ ls) =
                    existsb (String.eqb x) (seen ++ l :: ls)); [|by rewrite Heq].
      apply existsb_eqb_In in E. apply eq_true_iff_eq.
      rewrite !existsb_eqb_In, !in_app_iff. simpl. split; [tauto|].
      intros [H|[->|H]]; tauto.
    + simpl. rewrite IH. do 2 f_equal.
      assert (Heq : existsb (String.eqb x) ((l :: seen) ++ ls) =
                    existsb (String.eqb x) (seen ++ l :: ls)); [|by rewrite Heq].
      apply eq_true_iff_eq. rewrite !existsb_eqb_In, !in_app_iff. simpl. tauto.
Qed.

(** X21: a line added at the end of the file, not blank and no comment,
    becomes the first entry of the history when no earlier line gives the
    same entry; when one does, the history is what it was before, the
    entry staying where its first occurrence put it. *)
Theorem history_of_appended_line (lines : list string) (line : string) :
  is_empty (strip line) = false -> String.prefix "#" line = false ->
  load_history_strings (Some (lines ++ [line])) =
    if existsb (String.eqb (rstrip line)) (load_history_strings (Some lines))
    then load_history_strings (Some lines)
    else rstrip line :: load_history_strings (Some lines).
Proof.
  intros Hne Hhash. unfold load_history_strings.
  rewrite List.filter_app. simpl. rewrite Hne, Hhash. simpl.
  rewrite map_app. simpl. rewrite unique_from_snoc. simpl.
  set (kept := map rstrip (List.filter _ lines)).
  assert (Heq : existsb (String.eqb (rstrip line)) (rev (unique_from [] kept)) =
                existsb (String.eqb (rstrip line)) kept).
  { apply eq_true_iff_eq. rewrite !existsb_eqb_In, <- in_rev, unique_from_In.
    simpl. tauto. }
  rewrite Heq. destruct (existsb (String.eqb (rstrip line)) kept).
  - by rewrite app_nil_r.
  - by rewrite rev_app_distr.
Qed.

Lemma fold_written (parts : list string) (content : string) :
  parts <> [] ->
  fold_left (fun written line => written +:+ (line +:+ nl)) parts content =
    content +:+ join nl parts +:+ nl.
Proof.
  revert content. induction parts as [|p ps IH]; intros content Hne; [done|].
  simpl. destruct ps as [|q qs].
  - simpl. done.
  - rewrite IH by done. by rewrite !string_app_assoc.
Qed.

(** X22: [store_string] adds the string and one newline to the end of the
    file, however many lines the string has: cutting it at the newlines
    and writing the pieces one by one puts it back together. *)
Theorem store_string_appends (content string_ : string) :
  store_string content string_ = content +:+ string_ +:+ nl.
Proof.
  unfold store_string. rewrite fold_written by apply split_nonempty.
  rewrite join_split; [done|]. unfold nl. done.
Qed.

End FileHistoryFacts.

Lemma loaded_history_is_clean_witness :
  In "ls" (FileHistory.load_history_strings (Some history_lines)) /\
  "ls" <> "" /\ String.prefix "#" "ls" = false /\ rstrip "ls" = "ls" /\
  exists line, In line history_lines /\ "ls" = rstrip line.
Proof.
  assert (H : In "ls" (FileHistory.load_history_strings (Some history_lines)))
    by (vm_compute; tauto).
  split; [exact H|].
  exact (proj2 (proj2 (loaded_history_is_clean history_lines)) "ls" H).
Defined.

Lemma history_of_appended_line_witness :
  is_empty (strip ("pwd " +:+ nl)) = false /\
  String.prefix "#" ("pwd " +:+ nl) = false /\
  FileHistory.load_history_strings (Some (history_lines ++ ["pwd " +:+ nl])%list)
  = "pwd" :: FileHistory.load_history_strings (Some history_lines).
Proof.
  split; [vm_compute; reflexivity|]. split; [vm_compute; reflexivity|].
  exact (history_of_appended_line history_lines ("pwd " +:+ nl) eq_refl eq_refl).
Defined.

(** * Properties of the path completer *)

Section PathCompleterFacts.
Variable home : string.
Variable glob_ : string -> list string.
Variable isdir : string -> bool.
Variable isfile : string -> bool.
Local Open Scope list_scope.

Lemma join_snoc (sep_ : string) (parts : list string) (x : string) :
  parts <> [] -> join sep_ (parts ++ [x]) = join sep_ parts +:+ sep_ +:+ x.
Proof.
  induction parts as [|p ps IH]; intros Hne; [done|].
  destruct ps as [|q qs]; [done|].
  change ((p :: q :: qs) ++ [x]) with (p :: (q :: qs) ++ [x]).
  change ((q :: qs) ++ [x]) with (q :: qs ++ [x]) at 1.
  rewrite join_cons_cons. change (q :: qs ++ [x]) with ((q :: qs) ++ [x]).
  rewrite IH by done. rewrite join_cons_cons. by rewrite !string_app_assoc.
Qed.

Lemma start_of_last_word (text_ : string) :
  PathCompleter.start_of text_ =
    Z.of_nat (String.length (List.last (split " " text_) "")).
Proof.
  unfold PathCompleter.start_of.
  pose proof (join_split_space text_) as Hj.
  pose proof (split_nonempty " " text_) as Hne.
  destruct (@exists_last _ (split " " text_) Hne) as (init & w & Hsplit).
  rewrite Hsplit in *. rewrite last_last, removelast_last, length_app. simpl.
  destruct init as [|p ps].
  - simpl in *. by rewrite Hj.
  - replace (1 <? List.length (p :: ps) + 1)%nat with true
      by (symmetry; apply Nat.ltb_lt; simpl; lia).
    rewrite join_snoc in Hj by done. rewrite <- Hj.
    rewrite !string_length_app. simpl. lia.
Qed.

(** X23: every completion that [get_completions] yields replaces exactly
    the last space-delimited word of the text: its [start_position] is
    minus the length of that word (the clamp at zero never acts). *)
Theorem completions_replace_last_word (doc : PathCompleter.document)
    (c : PathCompleter.completion) :
  In c (PathCompleter.get_completions home glob_ isdir isfile doc) ->
  PathCompleter.start_position c =
    - Z.of_nat (String.length (List.last (split " " (PathCompleter.text doc)) "")).
Proof.
  unfold PathCompleter.get_completions.
  destruct (fold_left _ _ _) as [dirs_ files_].
  rewrite in_app_iff, !in_map_iff.
  intros [(d & <- & _)|(f & <- & _)]; simpl; by rewrite start_of_last_word.
Qed.

End PathCompleterFacts.

Lemma completions_replace_last_word_witness :
  In {| PathCompleter.completion_text := "foo/"; PathCompleter.start_position := -2;
        PathCompleter.style := "class:path-completion";
        PathCompleter.selected_style := "class:path-completion-selected" |}
     (PathCompleter.get_completions "/home/u" glob_fo isdir_fo isfile_fo doc_ls_fo) /\
  -2 = - Z.of_nat (String.length (List.last (split " " "ls fo") "")).
Proof.
  assert (H : In {| PathCompleter.completion_text := "foo/";
                    PathCompleter.start_position := -2;
                    PathCompleter.style := "class:path-completion";
                    PathCompleter.selected_style := "class:path-completion-selected" |}
                 (PathCompleter.get_completions "/home/u" glob_fo isdir_fo isfile_fo
                    doc_ls_fo))
    by (vm_compute; tauto).
  split; [exact H|].
  exact (completions_replace_last_word "/home/u" glob_fo isdir_fo isfile_fo doc_ls_fo _ H).
Defined.

(** * Further properties of the document retriever *)

Section DocumentMore.
Context {SV : Services}.
Local Open Scope list_scope.

(** X24: building a retriever from a file path for an index that is not
    there, or with [overwrite=True], reads that file once, hands its text
    to the formatter once, calls the embedding engine once per chunk,
    stores every chunk with its vector after the entries the index had,
    and hands the text to [Symbol.save] once, with the dump path of the
    index; when the reader or [Symbol.save] fails, the construction fails
    with that error. *)
Theorem building_reads_embeds_and_dumps
    (st : store_state) (file_path index_name : string) (top_k : nat) (overwrite : bool) :
  indices st !! index_name = None \/ overwrite = true ->
  (forall e, read_file file_path = inr e ->
     DocumentRetriever.__init__ (Some (DocumentRetriever.Path file_path))
       index_name top_k overwrite st = inr e) /\
  (forall txt, read_file file_path = inl txt ->
     (forall e, save_text (DocumentRetriever.dump_path index_name) txt = Some e ->
        DocumentRetriever.__init__ (Some (DocumentRetriever.Path file_path))
          index_name top_k overwrite st = inr e) /\
     (save_text (DocumentRetriever.dump_path index_name) txt = None ->
      exists r st',
        DocumentRetriever.__init__ (Some (DocumentRetriever.Path file_path))
          index_name top_k overwrite st = inl (r, st') /\
        DocumentRetriever.text r = PStr txt /\
        Indexer.index_name (DocumentRetriever.index r) = index_name /\
        files_read st' = files_read st ++ [file_path] /\
        formatted st' = formatted st ++ [txt] /\
        embed_calls st' = (embed_calls st + List.length (paragraph_format txt))%nat /\
        written st' = written st ++ [(DocumentRetriever.dump_path index_name, txt)] /\
        indices st' !! index_name =
          Some (match indices st !! index_name with Some es => es | None => [] end
                ++ map (fun c => (embed c, c)) (paragraph_format txt)))).
Proof.
  intros Hcase.
  assert (Hgo : negb (Indexer.exists_ {| Indexer.index_name := index_name;
                                         Indexer.top_k := top_k |} st) || overwrite = true).
  { destruct Hcase as [Hnone| ->]; [|apply orb_true_r].
    unfold Indexer.exists_. simpl. rewrite Hnone.
    rewrite bool_decide_eq_false_2 by (intros [? ?]; done). done. }
  unfold DocumentRetriever.__init__. rewrite Hgo. split.
  - by intros e ->.
  - intros txt ->. simpl. unfold DocumentRetriever.dump. split.
    + by intros e ->.
    + intros ->. eexists _, _. split; [reflexivity|]. simpl.
      unfold Indexer.register. simpl.
      destruct (indices st !! index_name) as [es|] eqn:Hix; simpl.
      * rewrite Hix. repeat split; try done. by rewrite lookup_insert_eq.
      * rewrite lookup_insert_eq. repeat split; try done. by rewrite lookup_insert_eq.
Qed.

End DocumentMore.

(** The dump path for a plain index name, for the empty name, for a name
    that ends in a slash and for one that starts with a slash. *)
Example dump_path_runs :
  DocumentRetriever.dump_path (SV := plain_services) "docs"
    = "/home/user/.symai/temp/docs/dump_file" /\
  DocumentRetriever.dump_path (SV := plain_services) ""
    = "/home/user/.symai/temp/dump_file" /\
  DocumentRetriever.dump_path (SV := plain_services) "docs/"
    = "/home/user/.symai/temp/docs/dump_file" /\
  DocumentRetriever.dump_path (SV := plain_services) "/srv/docs"
    = "/srv/docs/dump_file".
Proof. vm_compute. done. Qed.

Lemma building_reads_embeds_and_dumps_witness :
  indices st_docs !! "new" = None /\
  save_text (Services := plain_services)
    "/home/user/.symai/temp/new/dump_file" "contents of notes.txt" = None /\
  exists r st',
    DocumentRetriever.__init__ (SV := plain_services)
      (Some (DocumentRetriever.Path "notes.txt")) "new" 5 false st_docs = inl (r, st') /\
    DocumentRetriever.text r = PStr "contents of notes.txt" /\
    files_read st' = ["notes.txt"] /\
    embed_calls st' = 2%nat /\
    written st' = [("/home/user/.symai/temp/new/dump_file", "contents of notes.txt")].
Proof.
  assert (H : indices st_docs !! "new" = None) by (vm_compute; reflexivity).
  split; [exact H|]. split; [reflexivity|].
  destruct (proj2 (proj2 (building_reads_embeds_and_dumps (SV := plain_services)
                            st_docs "notes.txt" "new" 5 false (or_introl H))
                     "contents of notes.txt" eq_refl) eq_refl)
    as (r & st' & Hi & Ht & _ & Hf & _ & He & Hw & _).
  exists r, st'. split; [exact Hi|]. split; [exact Ht|]. split; [exact Hf|].
  split; [exact He|exact Hw].
Defined.
